(** * Query-string builder of the storefront frontend

    A shallow embedding of [frontend/src/api-utils/query-utils.ts]: the three
    exported builders [query], [entry] and [collection] and their private
    helpers [entryName], [collectionName] and [data], together with the small
    part of the JavaScript runtime they call (template literals, truthiness,
    [Array.prototype.join] and [filter], [Object.keys], [JSON.stringify] and
    the global regular-expression replace that strips the quotes of object
    keys).  A call either returns a string or throws; the operations that
    can throw are modelled as such.

    Strings are sequences of 8-bit characters.  A JavaScript string is read
    as its UTF-8 text; every character the code inspects (the double quote,
    the colon, the backslash and the control characters) is ASCII, and the
    bytes of a multi-byte character are copied through unchanged. *)

From Stdlib Require Import String Ascii List ZArith Bool Lia.
From Stdlib Require Import Decimal DecimalString DecimalPos DecimalZ.
From Equations Require Import Equations.
Import ListNotations.

Open Scope string_scope.

(** ** The JavaScript values the module handles *)

Module Js.

(** The double quote, U+0022. *)
Definition dquote : ascii := "034"%char.
Definition colon : ascii := ":"%char.
Definition backslash : ascii := "\"%char.

(** A one-character string holding the double quote. *)
Definition q : string := String dquote "".

(** The value of a template literal [`a${b}c`]: its parts, concatenated. *)
Definition template (parts : list string) : string :=
  fold_right append "" parts.

(** [number]: the values of type [number].  A double is [NaN], an
    infinity, one of the two zeros, or finite and not zero.  A finite double
    other than zero is given the way [Number::toString] reads it: by its
    sign and by the decimal [digits * 10 ^ exponent] that is the shortest
    one to read back as that double.  So [Finite false 15 (-1)] is [1.5],
    [Finite false 1 21] is [1e21], and an integer of magnitude below
    [2 ^ 53], each of which is a double and its own shortest decimal, is its
    digits with exponent [0] ([Int]). *)
Inductive number : Type :=
| Finite (negative : bool) (digits : positive) (exponent : Z)
| Zero
| NegZero
| NaN
| Infinity
| NegInfinity.

(** The number that an integer literal denotes, for integers of magnitude
    below [2 ^ 53]. *)
Definition Int (z : Z) : number :=
  match z with
  | Z0 => Zero
  | Zpos p => Finite false p 0
  | Zneg p => Finite true p 0
  end.

(** The decimal digits of a positive integer, the most significant first. *)
Definition digits_of (p : positive) : string :=
  NilEmpty.string_of_uint (Pos.to_uint p).

Fixpoint zeros (n : nat) : string :=
  match n with
  | O => ""
  | S m => String "0" (zeros m)
  end.

(** A digit string without the zeros at its end. *)
Fixpoint strip_zeros (s : string) : string :=
  match s with
  | "" => ""
  | String c t =>
      match strip_zeros t with
      | "" => if Ascii.eqb c "0" then "" else String c ""
      | t' => String c t'
      end
  end.

(** The first [n] characters of a string, and what follows them. *)
Fixpoint take (n : nat) (s : string) : string :=
  match n, s with
  | S m, String c t => String c (take m t)
  | _, _ => ""
  end.

Fixpoint drop (n : nat) (s : string) : string :=
  match n, s with
  | S m, String _ t => drop m t
  | _, _ => s
  end.

(** [Number::toString], radix 10.  With [s] the digits of the shortest
    decimal, [k] their number and [n] the position of the decimal point
    (the value is [0.s * 10 ^ n]): the digits and [n - k] zeros when
    [k <= n <= 21]; the digits with a point after the first [n] when
    [0 < n <= 21]; [0.], [-n] zeros and the digits when [-6 < n <= 0]; and
    otherwise the first digit, a point and the other digits if there are
    any, [e], the sign of [n - 1] and its magnitude. *)
Definition Number_toString (x : number) : string :=
  match x with
  | Finite negative p e =>
      let s := strip_zeros (digits_of p) in
      let k := Z.of_nat (String.length s) in
      let n := (e + Z.of_nat (String.length (digits_of p)))%Z in
      (if negative then "-" else "")
      ++ (if (k <=? n)%Z && (n <=? 21)%Z then
            s ++ zeros (Z.to_nat (n - k))
          else if (0 <? n)%Z && (n <=? 21)%Z then
            take (Z.to_nat n) s ++ "." ++ drop (Z.to_nat n) s
          else if (-6 <? n)%Z && (n <=? 0)%Z then
            "0." ++ zeros (Z.to_nat (- n)) ++ s
          else
            take 1 s
            ++ (if (1 <? k)%Z then "." ++ drop 1 s else "")
            ++ "e" ++ (if (n - 1 <? 0)%Z then "-" else "+")
            ++ NilZero.string_of_int (Z.to_int (Z.abs (n - 1))))
  | Zero | NegZero => "0"
  | NaN => "NaN"
  | Infinity => "Infinity"
  | NegInfinity => "-Infinity"
  end.

(** [ToBoolean] on a number: false on [+0], [-0] and [NaN]. *)
Definition Number_truthy (n : number) : bool :=
  match n with
  | Finite _ _ _ | Infinity | NegInfinity => true
  | Zero | NegZero | NaN => false
  end.

(** [Array.prototype.join] on an array of strings. *)
Fixpoint join (sep : string) (xs : list string) : string :=
  match xs with
  | [] => ""
  | [x] => x
  | x :: rest => x ++ sep ++ join sep rest
  end.

(** A plain data value, as [JSON.stringify] sees it.  An object is the
    list of its own enumerable properties in the order [Object.keys]
    lists them, which for property names that are not array indices is the
    order in which the properties were created. *)
#[local] Unset Elimination Schemes.
Inductive value : Type :=
| VUndefined
| VNull
| VBool (b : bool)
| VNum (n : number)
| VStr (s : string)
| VArr (xs : list value)
| VObj (ps : list (string * value)).
#[local] Set Elimination Schemes.

(** Induction on values: the elements of an array and the property values
    of an object satisfy the predicate. *)
Section ValueInd.
Variable P : value -> Prop.
Hypothesis Hundefined : P VUndefined.
Hypothesis Hnull : P VNull.
Hypothesis Hbool : forall b, P (VBool b).
Hypothesis Hnum : forall n, P (VNum n).
Hypothesis Hstr : forall s, P (VStr s).
Hypothesis Harr : forall xs, Forall P xs -> P (VArr xs).
Hypothesis Hobj : forall ps, Forall (fun p => P (snd p)) ps -> P (VObj ps).

Fixpoint value_ind (v : value) : P v :=
  match v with
  | VUndefined => Hundefined
  | VNull => Hnull
  | VBool b => Hbool b
  | VNum n => Hnum n
  | VStr s => Hstr s
  | VArr xs =>
      Harr xs
        ((fix all (l : list value) : Forall P l :=
            match l with
            | [] => Forall_nil P
            | x :: l' => Forall_cons x (value_ind x) (all l')
            end) xs)
  | VObj ps =>
      Hobj ps
        ((fix all (l : list (string * value))
            : Forall (fun p => P (snd p)) l :=
            match l with
            | [] => Forall_nil _
            | p :: l' =>
                @Forall_cons _ (fun p => P (snd p)) p l'
                  (value_ind (snd p)) (all l')
            end) ps)
  end.
End ValueInd.

(** [ToBoolean]. *)
Definition ToBoolean (v : value) : bool :=
  match v with
  | VUndefined | VNull => false
  | VBool b => b
  | VNum n => Number_truthy n
  | VStr s => negb (String.eqb s "")
  | VArr _ | VObj _ => true
  end.

(** [`${x}`] for a string that may be [undefined]. *)
Definition interpolate (x : option string) : string :=
  match x with
  | Some s => s
  | None => "undefined"
  end.

(** [x?.m(...)]: the call is skipped, and the result is [undefined], when
    [x] is [undefined]. *)
Definition optional_chain {A B : Type} (x : option A) (m : A -> B) : option B :=
  match x with
  | Some a => Some (m a)
  | None => None
  end.

(** *** Completions: a call returns normally or throws *)

Inductive error : Type :=
| TypeError (msg : string).

Inductive completion (A : Type) : Type :=
| Normal (a : A)
| Throw (e : error).
Arguments Normal {A} a.
Arguments Throw {A} e.

Definition bind {A B : Type} (c : completion A) (k : A -> completion B)
  : completion B :=
  match c with
  | Normal a => k a
  | Throw e => Throw e
  end.

Notation "x <- c ;; k" := (bind c (fun x => k))
  (at level 61, c at next level, right associativity).

(** [Array.prototype.filter] with a callback that may throw: the elements
    are tested from the left, and the first throw ends the call. *)
Fixpoint Array_filter {A : Type} (f : A -> completion bool) (xs : list A)
  : completion (list A) :=
  match xs with
  | [] => Normal []
  | x :: rest =>
      keep <- f x ;;
      kept <- Array_filter f rest ;;
      Normal (if keep then x :: kept else kept)
  end.

(** A variable that holds an object or [undefined]; the object is the list
    of its properties.  [Object.keys] and a property read both throw a
    [TypeError] on [undefined]. *)
Definition Object_keys {A : Type} (o : option (list (string * A)))
  : completion (list string) :=
  match o with
  | Some ps => Normal (map fst ps)
  | None => Throw (TypeError "Cannot convert undefined or null to object")
  end.

(** The value of the first property of that name, [undefined] (here
    [None]) when there is none. *)
Fixpoint lookup {A : Type} (key : string) (ps : list (string * A))
  : option A :=
  match ps with
  | [] => None
  | (k, v) :: rest => if String.eqb k key then Some v else lookup key rest
  end.

(** The property read [o[key]]. *)
Definition get {A : Type} (o : option (list (string * A))) (key : string)
  : completion (option A) :=
  match o with
  | Some ps => Normal (lookup key ps)
  | None => Throw (TypeError "Cannot read properties of undefined")
  end.

(** [ToBoolean] on what a read of a boolean property gives. *)
Definition flag_truthy (b : option bool) : bool :=
  match b with
  | Some true => true
  | _ => false
  end.

(** *** [JSON.stringify] *)

(** A number is finite when it is neither [NaN] nor an infinity. *)
Definition Number_finite (n : number) : bool :=
  match n with
  | Finite _ _ _ | Zero | NegZero => true
  | NaN | Infinity | NegInfinity => false
  end.

Definition hex_digit (n : nat) : ascii :=
  nth n (list_ascii_of_string "0123456789abcdef") "0"%char.

(** The escape of one character inside a JSON string literal
    ([QuoteJSONString]): the short escapes for backspace, tab, line feed,
    form feed and carriage return, a backslash before the double quote and
    the backslash, [\u00xx] for the other control characters, and the
    character itself otherwise. *)
Definition escape_char (c : ascii) : string :=
  let n := nat_of_ascii c in
  if Nat.eqb n 8 then "\b"
  else if Nat.eqb n 9 then "\t"
  else if Nat.eqb n 10 then "\n"
  else if Nat.eqb n 12 then "\f"
  else if Nat.eqb n 13 then "\r"
  else if Nat.eqb n 34 then String backslash q
  else if Nat.eqb n 92 then String backslash (String backslash "")
  else if Nat.ltb n 32 then
    "\u00" ++ String (hex_digit (n / 16)) (String (hex_digit (n mod 16)) "")
  else String c "".

Fixpoint escape (s : string) : string :=
  match s with
  | "" => ""
  | String c t => escape_char c ++ escape t
  end.

Definition QuoteJSONString (s : string) : string :=
  q ++ escape s ++ q.

(** [SerializeJSONProperty]: [undefined] has no JSON text; inside an array
    it is written [null], inside an object the property is left out; a
    number that is not finite is written [null]. *)
Fixpoint JSON_stringify (v : value) : option string :=
  match v with
  | VUndefined => None
  | VNull => Some "null"
  | VBool b => Some (if b then "true" else "false")
  | VNum n => Some (if Number_finite n then Number_toString n else "null")
  | VStr s => Some (QuoteJSONString s)
  | VArr xs =>
      Some ("[" ++ join ","
              (map (fun x => match JSON_stringify x with
                             | Some s => s
                             | None => "null"
                             end) xs) ++ "]")
  | VObj ps =>
      Some ("{" ++ join ","
              (flat_map (fun p => match JSON_stringify (snd p) with
                                  | Some s =>
                                      [QuoteJSONString (fst p) ++ ":" ++ s]
                                  | None => []
                                  end) ps) ++ "}")
  end.

(** *** The global replace that removes the quotes of property names

    The source calls [replace] with a global regular expression and the
    replacement [$1:].  Writing Q for the double quote, the expression is
    [Q([^Q]+)Q:] : a double quote, one or more characters other than the
    double quote (group 1), a double quote, a colon. *)

(** The longest prefix free of double quotes, and what follows it: the
    greedy match of a run of characters other than the double quote. *)
Fixpoint span_not_dquote (s : string) : string * string :=
  match s with
  | "" => ("", "")
  | String c t =>
      if Ascii.eqb c dquote then ("", s)
      else let (g, r) := span_not_dquote t in (String c g, r)
  end.

(** A match of the expression anchored at the start of [s]: the text of
    group 1 and the text after the match.  The group is greedy and stops
    only at a double quote or at the end of the text; giving characters
    back cannot help, since the pattern wants a double quote next and the
    group holds none, so the greedy attempt decides. *)
Definition match_key (s : string) : option (string * string) :=
  match s with
  | "" => None
  | String c t =>
      if Ascii.eqb c dquote then
        match span_not_dquote t with
        | (String g0 g, String c1 (String c2 r)) =>
            if Ascii.eqb c1 dquote && Ascii.eqb c2 colon
            then Some (String g0 g, r) else None
        | _ => None
        end
      else None
  end.

Definition inspect {A : Type} (a : A) : {b : A | a = b} :=
  exist _ a eq_refl.

(** The global replace: scan from the left; at a match write group 1 and a
    colon and go on after the match, otherwise copy one character and go
    on at the next. *)
Equations? replace_keys (s : string) : string by wf (String.length s) lt :=
  replace_keys "" := "";
  replace_keys (String c t) with inspect (match_key (String c t)) => {
    | exist _ (Some (g, r)) _ := g ++ ":" ++ replace_keys r;
    | exist _ None _ := String c (replace_keys t) }.
Proof.
  assert (Hspan : forall u g' r', span_not_dquote u = (g', r') ->
                  String.length r' <= String.length u).
  { induction u as [|a u IH]; simpl; intros g' r' H.
    - inversion H; simpl; lia.
    - destruct (Ascii.eqb a dquote).
      + inversion H; simpl; lia.
      + destruct (span_not_dquote u) as [g1 r1] eqn:E.
        inversion H; subst. specialize (IH _ _ eq_refl). lia. }
  unfold match_key in e.
  destruct (Ascii.eqb c dquote); [|discriminate].
  destruct (span_not_dquote t) as [g1 r1] eqn:E.
  destruct g1; [discriminate|].
  destruct r1 as [|c1 [|c2 r1]]; try discriminate.
  destruct (Ascii.eqb c1 dquote && Ascii.eqb c2 colon); [|discriminate].
  inversion e; subst. apply Hspan in E. simpl in *. lia.
Qed.

End Js.

Import Js.

(** ** The argument types of the builders *)

(** Modelled from the spec: the type [Filter] of [models/filter-models],
    which is not among the sources.  The spec describes a filter as a
    recursively structured expression (comparison operators or nested logical
    combinations) that the builder serializes as it is: any plain data
    value. *)
Definition Filter : Type := value.

(** Modelled from the spec: the type [Pagination] of
    [models/pagination-models], which is not among the sources: a small
    record of numeric options, here the options that are set, by name. *)
Definition Pagination : Type := list (string * number).

(** Modelled from the spec: the type [PaginationResponse] of
    [models/pagination-models], which is not among the sources: a mapping
    from the name of a pagination-metadata field to a boolean. *)
Definition PaginationResponse : Type := list (string * bool).

(** [sort?: string | string[]]. *)
Inductive SortSpec : Type :=
| SortOne (s : string)
| SortMany (ss : list string).

(** The runtime value of each optional argument; an argument that is left
    out is [undefined]. *)
Definition of_id (id : option number) : value :=
  match id with
  | Some n => VNum n
  | None => VUndefined
  end.

Definition of_filter (filter : option (list (string * Filter))) : value :=
  match filter with
  | Some ps => VObj ps
  | None => VUndefined
  end.

Definition of_pagination (pagination : option Pagination) : value :=
  match pagination with
  | Some ps => VObj (map (fun p => (fst p, VNum (snd p))) ps)
  | None => VUndefined
  end.

Definition of_sort (sort : option SortSpec) : value :=
  match sort with
  | Some (SortOne s) => VStr s
  | Some (SortMany ss) => VArr (map VStr ss)
  | None => VUndefined
  end.

Definition of_paginationResponse (r : option PaginationResponse) : value :=
  match r with
  | Some ps => VObj (map (fun p => (fst p, VBool (snd p))) ps)
  | None => VUndefined
  end.

(** [`${id}`] for an optional number. *)
Definition interpolate_number (id : option number) : string :=
  match id with
  | Some n => Number_toString n
  | None => "undefined"
  end.

(** ** The builders, as written in [query-utils.ts] *)

(** [query], lines 12-14: the content inside the query envelope. *)
Definition query (queryContent : string) : string :=
  template ["query { "; queryContent; " }"].

(** [entryName], lines 74-76: the id clause is written when [id] is
    truthy. *)
Definition entryName (entityName : string) (id : option number) : string :=
  template
    [entityName;
     if ToBoolean (of_id id)
     then template ["(id: "; interpolate_number id; ")"]
     else ""].

(** [data], lines 103-105. *)
Definition data (fields : list string) : string :=
  template ["data { id attributes { "; join " " fields; " } }"].

(** [entry], lines 27-33. *)
Definition entry (entityName : string) (fields : list string)
    (id : option number) : string :=
  template [entryName entityName id; " { "; data fields; " }"].

(** [collectionName], lines 78-101: the three literals are computed first,
    each by [JSON.stringify] and, unless that gave [undefined], the replace;
    the guards of the template test the arguments themselves. *)
Definition collectionName (entityName : string)
    (filter : option (list (string * Filter)))
    (pagination : option Pagination) (sort : option SortSpec) : string :=
  let filterString :=
    optional_chain (JSON_stringify (of_filter filter)) replace_keys in
  let paginationString :=
    optional_chain (JSON_stringify (of_pagination pagination)) replace_keys in
  let sortString :=
    optional_chain (JSON_stringify (of_sort sort)) replace_keys in
  let needsBraces :=
    ToBoolean (of_filter filter) || ToBoolean (of_pagination pagination)
    || ToBoolean (of_sort sort) in
  template
    [entityName;
     if needsBraces then "(" else "";
     if ToBoolean (of_filter filter)
     then template ["filters: "; interpolate filterString; ", "] else "";
     if ToBoolean (of_pagination pagination)
     then template ["pagination: "; interpolate paginationString; ", "]
     else "";
     if ToBoolean (of_sort sort)
     then template ["sort: "; interpolate sortString; ", "] else "";
     if needsBraces then ")" else ""].

(** [collection], lines 49-72: [paginationResponseString] stays
    [undefined] unless the response flags are truthy. *)
Definition collection (entityName : string) (fields : list string)
    (filter : option (list (string * Filter))) (sort : option SortSpec)
    (pagination : option Pagination)
    (paginationResponse : option PaginationResponse) : completion string :=
  paginationResponseString <-
    (if ToBoolean (of_paginationResponse paginationResponse) then
       keys <- Object_keys paginationResponse ;;
       kept <- Array_filter
                 (fun key =>
                    flag <- get paginationResponse key ;;
                    Normal (flag_truthy flag))
                 keys ;;
       Normal (Some (join " " kept))
     else Normal None) ;;
  Normal (template
    [collectionName entityName filter pagination sort;
     " { ";
     data fields;
     " ";
     if ToBoolean (of_paginationResponse paginationResponse)
     then template ["meta { pagination { ";
                    interpolate paginationResponseString; " } }"]
     else "";
     " }"]).

(** The exported interface as one type of calls; [run] performs a call. *)
Inductive call : Type :=
| CallQuery (queryContent : string)
| CallEntry (entityName : string) (fields : list string) (id : option number)
| CallCollection (entityName : string) (fields : list string)
    (filter : option (list (string * Filter))) (sort : option SortSpec)
    (pagination : option Pagination)
    (paginationResponse : option PaginationResponse).

Definition run (c : call) : completion string :=
  match c with
  | CallQuery x => Normal (query x)
  | CallEntry e f id => Normal (entry e f id)
  | CallCollection e f flt srt pg pr => collection e f flt srt pg pr
  end.

(** ** The builders, with the exceptions of [JSON.stringify]

    [JSON.stringify] throws a [TypeError] on a [BigInt] and on a structure
    that holds itself.  The sort argument (strings) and the pagination
    argument (numbers) can hold neither; a filter, whose type is recursive,
    can hold both.  The builders above are the builders on filters that are
    plain data; here they are once more with a filter that is any run-time
    value, and with the exception carried through every call, as the source
    does by not catching it. *)

Module Throwing.

(** What a filter may hold at run time: plain data, a [BigInt], or, at the
    place where a structure holds one of the objects or arrays that enclose
    it, the mark [RCycle]. *)
#[local] Unset Elimination Schemes.
Inductive runtime_value : Type :=
| RUndefined
| RNull
| RBool (b : bool)
| RNum (n : number)
| RBigInt (z : Z)
| RStr (s : string)
| RArr (xs : list runtime_value)
| RObj (ps : list (string * runtime_value))
| RCycle.
#[local] Set Elimination Schemes.

Section RuntimeValueInd.
Variable P : runtime_value -> Prop.
Hypothesis Hundefined : P RUndefined.
Hypothesis Hnull : P RNull.
Hypothesis Hbool : forall b, P (RBool b).
Hypothesis Hnum : forall n, P (RNum n).
Hypothesis Hbigint : forall z, P (RBigInt z).
Hypothesis Hstr : forall s, P (RStr s).
Hypothesis Harr : forall xs, Forall P xs -> P (RArr xs).
Hypothesis Hobj : forall ps, Forall (fun p => P (snd p)) ps -> P (RObj ps).
Hypothesis Hcycle : P RCycle.

Fixpoint runtime_value_ind (v : runtime_value) : P v :=
  match v with
  | RUndefined => Hundefined
  | RNull => Hnull
  | RBool b => Hbool b
  | RNum n => Hnum n
  | RBigInt z => Hbigint z
  | RStr s => Hstr s
  | RArr xs =>
      Harr xs
        ((fix all (l : list runtime_value) : Forall P l :=
            match l with
            | [] => Forall_nil P
            | x :: l' => Forall_cons x (runtime_value_ind x) (all l')
            end) xs)
  | RObj ps =>
      Hobj ps
        ((fix all (l : list (string * runtime_value))
            : Forall (fun p => P (snd p)) l :=
            match l with
            | [] => Forall_nil _
            | p :: l' =>
                @Forall_cons _ (fun p => P (snd p)) p l'
                  (runtime_value_ind (snd p)) (all l')
            end) ps)
  | RCycle => Hcycle
  end.
End RuntimeValueInd.

(** Plain data as a run-time value. *)
Fixpoint lift (v : value) : runtime_value :=
  match v with
  | VUndefined => RUndefined
  | VNull => RNull
  | VBool b => RBool b
  | VNum n => RNum n
  | VStr s => RStr s
  | VArr xs => RArr (map lift xs)
  | VObj ps => RObj (map (fun p => (fst p, lift (snd p))) ps)
  end.

(** A run-time value that is plain data: no [BigInt] and no cycle in
    it. *)
Fixpoint plain (v : runtime_value) : bool :=
  match v with
  | RBigInt _ | RCycle => false
  | RArr xs => forallb plain xs
  | RObj ps => forallb (fun p => plain (snd p)) ps
  | _ => true
  end.

(** [ToBoolean]; the [BigInt] zero is falsy, an object is truthy. *)
Definition ToBoolean (v : runtime_value) : bool :=
  match v with
  | RUndefined | RNull => false
  | RBool b => b
  | RNum n => Number_truthy n
  | RBigInt z => negb (Z.eqb z 0)
  | RStr s => negb (String.eqb s "")
  | RArr _ | RObj _ | RCycle => true
  end.

(** The elements of an array, each through a call that may throw, from the
    left; the first throw ends the walk. *)
Definition each {A B : Type} (f : A -> completion B)
  : list A -> completion (list B) :=
  fix walk (xs : list A) : completion (list B) :=
    match xs with
    | [] => Normal []
    | x :: rest =>
        y <- f x ;;
        ys <- walk rest ;;
        Normal (y :: ys)
    end.

(** [SerializeJSONProperty], with its two exceptions. *)
Fixpoint JSON_stringify (v : runtime_value) : completion (option string) :=
  match v with
  | RUndefined => Normal None
  | RNull => Normal (Some "null")
  | RBool b => Normal (Some (if b then "true" else "false"))
  | RNum n =>
      Normal (Some (if Number_finite n then Number_toString n else "null"))
  | RBigInt _ => Throw (TypeError "Do not know how to serialize a BigInt")
  | RStr s => Normal (Some (QuoteJSONString s))
  | RArr xs =>
      elements <-
        each (fun x =>
                text <- JSON_stringify x ;;
                Normal (match text with
                        | Some s => s
                        | None => "null"
                        end)) xs ;;
      Normal (Some ("[" ++ join "," elements ++ "]"))
  | RObj ps =>
      members <-
        each (fun p =>
                text <- JSON_stringify (snd p) ;;
                Normal (match text with
                        | Some s => [QuoteJSONString (fst p) ++ ":" ++ s]
                        | None => []
                        end)) ps ;;
      Normal (Some ("{" ++ join "," (List.concat members) ++ "}"))
  | RCycle => Throw (TypeError "Converting circular structure to JSON")
  end.

Definition of_filter (filter : option (list (string * runtime_value)))
  : runtime_value :=
  match filter with
  | Some ps => RObj ps
  | None => RUndefined
  end.

(** [collectionName], lines 78-101: a throw of one of the three calls of
    [JSON.stringify] ends the call. *)
Definition collectionName (entityName : string)
    (filter : option (list (string * runtime_value)))
    (pagination : option Pagination) (sort : option SortSpec)
  : completion string :=
  filterText <- JSON_stringify (of_filter filter) ;;
  paginationText <- JSON_stringify (lift (of_pagination pagination)) ;;
  sortText <- JSON_stringify (lift (of_sort sort)) ;;
  let filterString := optional_chain filterText replace_keys in
  let paginationString := optional_chain paginationText replace_keys in
  let sortString := optional_chain sortText replace_keys in
  let needsBraces :=
    ToBoolean (of_filter filter) || Js.ToBoolean (of_pagination pagination)
    || Js.ToBoolean (of_sort sort) in
  Normal (template
    [entityName;
     if needsBraces then "(" else "";
     if ToBoolean (of_filter filter)
     then template ["filters: "; interpolate filterString; ", "] else "";
     if Js.ToBoolean (of_pagination pagination)
     then template ["pagination: "; interpolate paginationString; ", "]
     else "";
     if Js.ToBoolean (of_sort sort)
     then template ["sort: "; interpolate sortString; ", "] else "";
     if needsBraces then ")" else ""]).

(** [collection], lines 49-72: the flags are read first, and a throw of
    [collectionName] inside the template ends the call. *)
Definition collection (entityName : string) (fields : list string)
    (filter : option (list (string * runtime_value)))
    (sort : option SortSpec) (pagination : option Pagination)
    (paginationResponse : option PaginationResponse) : completion string :=
  paginationResponseString <-
    (if Js.ToBoolean (of_paginationResponse paginationResponse) then
       keys <- Object_keys paginationResponse ;;
       kept <- Array_filter
                 (fun key =>
                    flag <- get paginationResponse key ;;
                    Normal (flag_truthy flag))
                 keys ;;
       Normal (Some (join " " kept))
     else Normal None) ;;
  name <- collectionName entityName filter pagination sort ;;
  Normal (template
    [name;
     " { ";
     data fields;
     " ";
     if Js.ToBoolean (of_paginationResponse paginationResponse)
     then template ["meta { pagination { ";
                    interpolate paginationResponseString; " } }"]
     else "";
     " }"]).

Inductive call : Type :=
| CallQuery (queryContent : string)
| CallEntry (entityName : string) (fields : list string) (id : option number)
| CallCollection (entityName : string) (fields : list string)
    (filter : option (list (string * runtime_value)))
    (sort : option SortSpec) (pagination : option Pagination)
    (paginationResponse : option PaginationResponse).

Definition run (c : call) : completion string :=
  match c with
  | CallQuery x => Normal (query x)
  | CallEntry e f id => Normal (entry e f id)
  | CallCollection e f flt srt pg pr => collection e f flt srt pg pr
  end.

(** A call whose filter, if it has one, is plain data. *)
Definition plain_call (c : call) : bool :=
  match c with
  | CallCollection _ _ (Some ps) _ _ _ => plain (RObj ps)
  | _ => true
  end.

End Throwing.

(** A call on plain data, as a call of the builders that can throw. *)
Definition lift_call (c : call) : Throwing.call :=
  match c with
  | CallQuery x => Throwing.CallQuery x
  | CallEntry e f id => Throwing.CallEntry e f id
  | CallCollection e f flt srt pg pr =>
      Throwing.CallCollection e f
        (option_map (map (fun p => (fst p, Throwing.lift (snd p)))) flt)
        srt pg pr
  end.

(** ** Vocabulary of the specification *)

(** [String.prototype.startsWith], [includes] and [endsWith]. *)
Fixpoint startsWith (s p : string) {struct p} : bool :=
  match p with
  | "" => true
  | String a p' =>
      match s with
      | String b s' => Ascii.eqb a b && startsWith s' p'
      | "" => false
      end
  end.

Fixpoint includes (s sub : string) : bool :=
  startsWith s sub
  || match s with
     | "" => false
     | String _ t => includes t sub
     end.

Fixpoint endsWith (s t : string) : bool :=
  String.eqb s t
  || match s with
     | "" => false
     | String _ s' => endsWith s' t
     end.

(** [s.split(sep)] for a one-character separator. *)
Fixpoint split (sep : ascii) (s : string) : list string :=
  match s with
  | "" => [""]
  | String c t =>
      if Ascii.eqb c sep then "" :: split sep t
      else match split sep t with
           | [] => [String c ""]
           | w :: ws => String c w :: ws
           end
  end.

(** A text that holds no occurrence of the character [a]. *)
Fixpoint lacks (a : ascii) (s : string) : bool :=
  match s with
  | "" => true
  | String c t => negb (Ascii.eqb c a) && lacks a t
  end.

Definition starts_with_colon (s : string) : bool :=
  match s with
  | String c _ => Ascii.eqb c colon
  | "" => false
  end.

(** The first double quote of [s], if there is one, has a colon right
    after it. *)
Fixpoint next_quote_colon (s : string) : bool :=
  match s with
  | "" => false
  | String c t =>
      if Ascii.eqb c dquote then starts_with_colon t
      else next_quote_colon t
  end.

(** A continuation at which an attempted match cannot succeed by reading on
    into it: it does not begin with a colon, and its first double quote has
    no colon after it. *)
Definition calm (k : string) : bool :=
  negb (starts_with_colon k) && negb (next_quote_colon k).

(** The decimal text of an integer, read back. *)
Definition parse_integer (s : string) : option Z :=
  option_map Z.of_int (NilZero.int_of_string s).

(** The texts that the replace leaves alone: no double quote inside, no
    colon in front. *)
Definition text_ok (s : string) : bool :=
  lacks dquote s && negb (starts_with_colon s).

(** A property name whose quotes the replace removes: a [text_ok] name that
    is not empty. *)
Definition key_ok (k : string) : bool :=
  negb (String.eqb k "") && text_ok k.

(** Well-formed arguments: every property name is [key_ok] and every string
    is [text_ok], at any depth. *)
Fixpoint well_formed (v : value) : bool :=
  match v with
  | VStr s => text_ok s
  | VArr xs => forallb well_formed xs
  | VObj ps => forallb (fun p => key_ok (fst p) && well_formed (snd p)) ps
  | _ => true
  end.

(** The literal the spec asks for, written by a recursive serializer:
    property names without quotes, strings with them, nothing between the
    tokens. *)
Fixpoint render (v : value) : option string :=
  match v with
  | VUndefined => None
  | VNull => Some "null"
  | VBool b => Some (if b then "true" else "false")
  | VNum n => Some (if Number_finite n then Number_toString n else "null")
  | VStr s => Some (q ++ escape s ++ q)
  | VArr xs =>
      Some ("[" ++ join ","
              (map (fun x => match render x with
                             | Some s => s
                             | None => "null"
                             end) xs) ++ "]")
  | VObj ps =>
      Some ("{" ++ join ","
              (flat_map (fun p => match render (snd p) with
                                  | Some s => [escape (fst p) ++ ":" ++ s]
                                  | None => []
                                  end) ps) ++ "}")
  end.

(** The replace turns [s] into [s'] in front of any calm continuation, and
    leaves the continuation calm. *)
Definition rewritten (s s' : string) : Prop :=
  forall k, calm k = true ->
    replace_keys (s ++ k) = s' ++ replace_keys k /\ calm (s ++ k) = true.

(** The code's text of a value and the spec's text of it, compared: both
    absent, or the replace turns the first into the second. *)
Definition agrees (v : value) : Prop :=
  match JSON_stringify v, render v with
  | Some s, Some s' => rewritten s s'
  | None, None => True
  | _, _ => False
  end.

(** The literal the code writes for an argument. *)
Definition literal (v : value) : string :=
  interpolate (optional_chain (JSON_stringify v) replace_keys).

(** One parameter of the parenthesized clause: [<key>: <value>, ]. *)
Definition param (key value : string) : string :=
  key ++ ": " ++ value ++ ", ".

(** The parameters that a call contributes, in the order of the clause:
    the arguments that are truthy, each under its key. *)
Definition contributed (filter : option (list (string * Filter)))
    (pagination : option Pagination) (sort : option SortSpec)
  : list (string * value) :=
  List.filter (fun kv => ToBoolean (snd kv))
    [("filters", of_filter filter);
     ("pagination", of_pagination pagination);
     ("sort", of_sort sort)].

(** The same for the arguments that are supplied, truthy or not. *)
Definition supplied (v : value) : bool :=
  match v with
  | VUndefined => false
  | _ => true
  end.

Definition present (filter : option (list (string * Filter)))
    (pagination : option Pagination) (sort : option SortSpec)
  : list (string * value) :=
  List.filter (fun kv => supplied (snd kv))
    [("filters", of_filter filter);
     ("pagination", of_pagination pagination);
     ("sort", of_sort sort)].

(** The parenthesized clause for a list of parameters: nothing for none. *)
Definition clause (lit : value -> string) (ps : list (string * value))
  : string :=
  match ps with
  | [] => ""
  | _ => "(" ++ String.concat ""
                  (map (fun kv => param (fst kv) (lit (snd kv))) ps) ++ ")"
  end.

(** *** The output grammar of the spec

    A language is a set of strings.  The grammar leaves [Name], [Literal],
    [FieldList] and [FlagNames] open; they are parameters here. *)
Definition lang : Type := string -> Prop.

Definition lit (a : string) : lang := fun s => s = a.
Definition cat (P Q : lang) : lang :=
  fun s => exists a b, s = a ++ b /\ P a /\ Q b.
Definition opt (P : lang) : lang := fun s => s = "" \/ P s.
Definition any : lang := fun _ => True.

Section Grammar.
Variables Name Literal FieldList FlagNames : lang.

Definition DataBlock : lang :=
  cat (lit "data { id attributes { ") (cat FieldList (lit " } }")).

Definition MetaBlock : lang :=
  cat (lit "meta { pagination { ") (cat FlagNames (lit " } }")).

Definition Param (opening : string) : lang :=
  cat (lit opening) (cat Literal (lit ", ")).

Definition ParamList : lang :=
  cat (opt (Param "filters: "))
    (cat (opt (Param "pagination: ")) (opt (Param "sort: "))).

(** [CollectionReq], as the spec writes it. *)
Definition CollectionReq : lang :=
  cat Name
    (cat (opt (cat (lit "(") (cat ParamList (lit ")"))))
       (cat (lit " { ")
          (cat DataBlock
             (cat (opt (cat (lit " ") MetaBlock)) (lit " }"))))).

(** [CollectionReq] with the space before the meta block written whether
    or not a meta block follows. *)
Definition CollectionReq_spaced : lang :=
  cat Name
    (cat (opt (cat (lit "(") (cat ParamList (lit ")"))))
       (cat (lit " { ")
          (cat DataBlock
             (cat (lit " ") (cat (opt MetaBlock) (lit " }")))))).
End Grammar.

(** *** Counting and erasing characters *)

(** The number of occurrences of the character [a] in [s]. *)
Fixpoint count (a : ascii) (s : string) : nat :=
  match s with
  | "" => 0
  | String c t => (if Ascii.eqb c a then 1 else 0) + count a t
  end.

(** [s] without its occurrences of the character [a]. *)
Fixpoint remove (a : ascii) (s : string) : string :=
  match s with
  | "" => ""
  | String c t => if Ascii.eqb c a then remove a t else String c (remove a t)
  end.

(** As many opening as closing braces. *)
Definition balanced (s : string) : Prop :=
  count "{" s = count "}" s.

(** The characters that [QuoteJSONString] copies as they are: no control
    character, no double quote, no backslash. *)
Definition verbatim_char (c : ascii) : bool :=
  Nat.leb 32 (nat_of_ascii c)
  && negb (Ascii.eqb c dquote) && negb (Ascii.eqb c backslash).

Fixpoint verbatim (s : string) : bool :=
  match s with
  | "" => true
  | String c t => verbatim_char c && verbatim t
  end.

(** ** Strings *)

Lemma append_assoc (a b c : string) : (a ++ b) ++ c = a ++ (b ++ c).
Proof. induction a as [|x a IH]; simpl; [reflexivity | now rewrite IH]. Qed.

Lemma append_nil_r (a : string) : a ++ "" = a.
Proof. induction a as [|x a IH]; simpl; [reflexivity | now rewrite IH]. Qed.

Lemma append_inv_head (a b c : string) : a ++ b = a ++ c -> b = c.
Proof.
  induction a as [|x a IH]; simpl; intros H; [exact H|].
  injection H as H. now apply IH.
Qed.

(** Right-nest every concatenation and merge the literals that meet. *)
Ltac flatten := repeat rewrite append_assoc; cbn [append].

(** ** The replace, one step at a time *)

Lemma replace_keys_nil : replace_keys "" = "".
Proof. now simp replace_keys. Qed.

Lemma replace_keys_match c t g r :
  match_key (String c t) = Some (g, r) ->
  replace_keys (String c t) = g ++ ":" ++ replace_keys r.
Proof.
  intros H. simp replace_keys.
  generalize (inspect (match_key (String c t))). intros [[[g' r']|] e];
    simp replace_keys; congruence.
Qed.

Lemma replace_keys_copy c t :
  match_key (String c t) = None ->
  replace_keys (String c t) = String c (replace_keys t).
Proof.
  intros H. simp replace_keys.
  generalize (inspect (match_key (String c t))). intros [[[g' r']|] e];
    simp replace_keys; congruence.
Qed.

(** ** Characters that the scanner looks for *)

Lemma lacks_append a x y : lacks a (x ++ y) = lacks a x && lacks a y.
Proof.
  induction x as [|c x IH]; simpl; [reflexivity|].
  now rewrite IH, andb_assoc.
Qed.

Lemma escape_char_lacks c :
  Ascii.eqb c dquote = false -> lacks dquote (escape_char c) = true.
Proof.
  destruct c as [[] [] [] [] [] [] [] []]; intros H;
    solve [reflexivity | discriminate H].
Qed.

Lemma escape_char_colon c r :
  starts_with_colon (escape_char c ++ r) = Ascii.eqb c colon.
Proof. destruct c as [[] [] [] [] [] [] [] []]; reflexivity. Qed.

Lemma escape_lacks s : lacks dquote s = true -> lacks dquote (escape s) = true.
Proof.
  induction s as [|c s IH]; simpl; [reflexivity|].
  intros H. apply andb_true_iff in H as [Hc Hs].
  rewrite lacks_append, IH by assumption.
  rewrite escape_char_lacks; [reflexivity|].
  now apply negb_true_iff.
Qed.

Lemma escape_colon s : starts_with_colon (escape s) = starts_with_colon s.
Proof. destruct s as [|c s]; simpl; [reflexivity | apply escape_char_colon]. Qed.

Lemma escape_nonempty s : s <> "" -> escape s <> "".
Proof.
  destruct s as [|c s]; [congruence|]. intros _. simpl.
  destruct c as [[] [] [] [] [] [] [] []]; discriminate.
Qed.

Lemma uint_text_ok d :
  lacks dquote (NilEmpty.string_of_uint d) = true
  /\ starts_with_colon (NilEmpty.string_of_uint d) = false.
Proof.
  induction d as [|d [IH _]|d [IH _]|d [IH _]|d [IH _]|d [IH _]|d [IH _]
                  |d [IH _]|d [IH _]|d [IH _]|d [IH _]];
    simpl; auto.
Qed.

(** The characters of the text of a number: digits, the sign, the point,
    the exponent mark and the letters of [NaN] and [Infinity]. *)
Ltac split_lacks H :=
  cbn [lacks] in H;
  repeat match type of H with
         | _ && _ = true =>
             let H' := fresh "Hc" in apply andb_true_iff in H as [H' H]
         end.

Ltac one_char :=
  cbn [lacks];
  repeat (apply andb_true_iff; split); assumption || reflexivity.

Lemma lacks_take c n s : lacks c s = true -> lacks c (take n s) = true.
Proof.
  revert s. induction n as [|n IH]; intros [|x s] H; simpl; try reflexivity.
  simpl in H. apply andb_true_iff in H as [Hx Hs]. now rewrite Hx, IH.
Qed.

Lemma lacks_drop c n s : lacks c s = true -> lacks c (drop n s) = true.
Proof.
  revert s. induction n as [|n IH]; intros [|x s] H; simpl; try assumption.
  simpl in H. apply andb_true_iff in H as [_ Hs]. now apply IH.
Qed.

Lemma lacks_strip_zeros c s :
  lacks c s = true -> lacks c (strip_zeros s) = true.
Proof.
  induction s as [|x s IH]; simpl; intros H; [reflexivity|].
  apply andb_true_iff in H as [Hx Hs]. specialize (IH Hs).
  destruct (strip_zeros s) as [|y t].
  - destruct (Ascii.eqb x "0"); simpl; [reflexivity | now rewrite Hx].
  - simpl in *. now rewrite Hx, IH.
Qed.

Lemma lacks_zeros c n :
  negb (Ascii.eqb "0" c) = true -> lacks c (zeros n) = true.
Proof.
  intros H. induction n as [|n IH]; cbn [zeros lacks]; [reflexivity|].
  now rewrite H, IH.
Qed.

Lemma uint_lacks c d :
  lacks c "0123456789" = true -> lacks c (NilEmpty.string_of_uint d) = true.
Proof.
  intros H. split_lacks H.
  induction d; cbn [NilEmpty.string_of_uint lacks]; try reflexivity;
    match goal with IH : lacks _ _ = true |- _ => rewrite IH end;
    rewrite ?andb_true_r; assumption.
Qed.

Lemma int_lacks c z :
  lacks c "0123456789-" = true ->
  lacks c (NilZero.string_of_int (Z.to_int z)) = true.
Proof.
  intros H.
  assert (Hd : lacks c "0123456789" = true).
  { split_lacks H. cbn [lacks].
    repeat (apply andb_true_iff; split); assumption || reflexivity. }
  assert (Hu : forall d, lacks c (NilZero.string_of_uint d) = true).
  { intros d. pose proof (uint_lacks c d Hd) as Hl.
    destruct d; try exact Hl. cbn [NilZero.string_of_uint lacks] in Hd |- *.
    apply andb_true_iff in Hd as [-> _]. reflexivity. }
  split_lacks H. unfold NilZero.string_of_int.
  destruct (Z.to_int z) as [d|d]; [apply Hu|].
  cbn [lacks]. rewrite Hu, andb_true_r. assumption.
Qed.

Lemma Number_lacks c n :
  lacks c "0123456789-NaIfinty.e+" = true ->
  lacks c (Number_toString n) = true.
Proof.
  intros H.
  assert (Hd : lacks c "0123456789" = true).
  { split_lacks H. cbn [lacks].
    repeat (apply andb_true_iff; split); assumption || reflexivity. }
  assert (Hi : forall z, lacks c (NilZero.string_of_int (Z.to_int z)) = true).
  { intros z. apply int_lacks. split_lacks H. cbn [lacks].
    repeat (apply andb_true_iff; split); assumption || reflexivity. }
  split_lacks H.
  destruct n as [negative p e| | | | |]; cbn [Number_toString].
  - assert (Hs : lacks c (strip_zeros (digits_of p)) = true)
      by now apply lacks_strip_zeros, uint_lacks.
    rewrite lacks_append. apply andb_true_iff. split.
    { destruct negative; [one_char | reflexivity]. }
    repeat match goal with
           | |- lacks c (if ?b then _ else _) = true => destruct b
           | |- lacks c (_ ++ _) = true =>
               rewrite lacks_append; apply andb_true_iff; split
           end;
      try solve [ assumption | reflexivity | one_char | apply Hi
                | now apply lacks_zeros | now apply lacks_take
                | now apply lacks_drop ].
  - one_char.
  - one_char.
  - cbn [lacks].
    repeat (apply andb_true_iff; split); assumption || reflexivity.
  - cbn [lacks].
    repeat (apply andb_true_iff; split); assumption || reflexivity.
  - cbn [lacks].
    repeat (apply andb_true_iff; split); assumption || reflexivity.
Qed.

Lemma lacks_colon_start s : lacks colon s = true -> starts_with_colon s = false.
Proof.
  destruct s as [|c s]; simpl; intros H; [reflexivity|].
  apply andb_true_iff in H as [H _]. now apply negb_true_iff in H.
Qed.

Lemma Number_text_ok n : text_ok (Number_toString n) = true.
Proof.
  unfold text_ok. rewrite (Number_lacks dquote) by reflexivity.
  now rewrite lacks_colon_start by (apply Number_lacks; reflexivity).
Qed.

(** ** The scanner on the pieces of a JSON text *)

Lemma span_lacks e r :
  lacks dquote e = true ->
  span_not_dquote (e ++ String dquote r) = (e, String dquote r).
Proof.
  induction e as [|c e IH]; simpl; intros H.
  - reflexivity.
  - apply andb_true_iff in H as [Hc He]. apply negb_true_iff in Hc.
    now rewrite Hc, IH.
Qed.

Lemma span_next_quote k g r :
  span_not_dquote k = (g, r) ->
  r = "" \/ exists r', r = String dquote r'
                       /\ starts_with_colon r' = next_quote_colon k.
Proof.
  revert g r. induction k as [|c k IH]; simpl; intros g r H.
  - left. congruence.
  - destruct (Ascii.eqb c dquote) eqn:Hc.
    + apply Ascii.eqb_eq in Hc. subst c. right. exists k.
      split; congruence.
    + destruct (span_not_dquote k) as [g1 r1].
      injection H as _ <-. now apply (IH g1).
Qed.

Lemma match_key_other c t :
  Ascii.eqb c dquote = false -> match_key (String c t) = None.
Proof. intros H. unfold match_key. now rewrite H. Qed.

(** At the quote that closes a string: reading on finds the next quote,
    which has no colon after it. *)
Lemma match_key_closing k :
  next_quote_colon k = false -> match_key (String dquote k) = None.
Proof.
  intros Hk. unfold match_key. rewrite Ascii.eqb_refl.
  destruct (span_not_dquote k) as [g r] eqn:E.
  destruct (span_next_quote _ _ _ E) as [-> | (r' & -> & Hr')].
  - now destruct g.
  - rewrite Hk in Hr'. destruct g; [reflexivity|].
    destruct r' as [|c2 r']; [reflexivity|]. simpl in Hr'.
    now rewrite Hr', andb_false_r.
Qed.

(** At the quote that opens a string which is a value: the closing quote
    has no colon after it. *)
Lemma match_key_opening e k :
  lacks dquote e = true -> starts_with_colon k = false ->
  match_key (String dquote (e ++ String dquote k)) = None.
Proof.
  intros He Hk. unfold match_key. rewrite Ascii.eqb_refl, span_lacks by assumption.
  destruct e; [reflexivity|].
  destruct k as [|c2 k]; [reflexivity|]. simpl in Hk.
  now rewrite Hk, andb_false_r.
Qed.

(** At the quote that opens a property name. *)
Lemma match_key_property e rest :
  lacks dquote e = true -> e <> "" ->
  match_key (String dquote (e ++ String dquote (String colon rest)))
  = Some (e, rest).
Proof.
  intros He Hne. unfold match_key. rewrite Ascii.eqb_refl, span_lacks by assumption.
  destruct e; [congruence|]. reflexivity.
Qed.

Lemma replace_keys_lacks e r :
  lacks dquote e = true -> replace_keys (e ++ r) = e ++ replace_keys r.
Proof.
  induction e as [|c e IH]; simpl; intros H; [reflexivity|].
  apply andb_true_iff in H as [Hc He]. apply negb_true_iff in Hc.
  rewrite replace_keys_copy by now apply match_key_other.
  now rewrite IH.
Qed.

Lemma next_quote_colon_lacks e k :
  lacks dquote e = true -> next_quote_colon (e ++ k) = next_quote_colon k.
Proof.
  induction e as [|c e IH]; simpl; intros H; [reflexivity|].
  apply andb_true_iff in H as [Hc He]. apply negb_true_iff in Hc.
  now rewrite Hc, IH.
Qed.

Lemma calm_inv k :
  calm k = true -> starts_with_colon k = false /\ next_quote_colon k = false.
Proof.
  unfold calm. intros H. apply andb_true_iff in H as [H1 H2].
  now rewrite negb_true_iff in H1, H2.
Qed.

Lemma text_ok_inv s :
  text_ok s = true -> lacks dquote s = true /\ starts_with_colon s = false.
Proof.
  unfold text_ok. intros H. apply andb_true_iff in H as [H1 H2].
  now rewrite negb_true_iff in H2.
Qed.

Lemma calm_quoted e k :
  starts_with_colon e = false -> calm (String dquote (e ++ String dquote k)) = true.
Proof.
  intros He. unfold calm. simpl.
  destruct e as [|c e]; [reflexivity|]. simpl in *. now rewrite He.
Qed.

(** ** What the replace does to each piece *)

Lemma rewritten_plain s : text_ok s = true -> rewritten s s.
Proof.
  intros H k Hk. apply text_ok_inv in H as [Hq Hc].
  apply calm_inv in Hk as [Hk1 Hk2]. split.
  - now apply replace_keys_lacks.
  - unfold calm. rewrite next_quote_colon_lacks, Hk2 by assumption.
    destruct s as [|c s]; simpl in *; [now rewrite Hk1 | now rewrite Hc].
Qed.

Lemma rewritten_app s1 s1' s2 s2' :
  rewritten s1 s1' -> rewritten s2 s2' -> rewritten (s1 ++ s2) (s1' ++ s2').
Proof.
  intros H1 H2 k Hk. destruct (H2 k Hk) as [E2 C2].
  destruct (H1 (s2 ++ k) C2) as [E1 C1].
  rewrite !append_assoc. split; [now rewrite E1, E2 | exact C1].
Qed.

Lemma rewritten_string s :
  text_ok s = true -> rewritten (QuoteJSONString s) (q ++ escape s ++ q).
Proof.
  intros H k Hk. apply text_ok_inv in H as [Hq Hc].
  apply calm_inv in Hk as [Hk1 Hk2].
  pose proof (escape_lacks _ Hq) as He.
  unfold QuoteJSONString, q. flatten. split.
  - rewrite replace_keys_copy by now apply match_key_opening.
    rewrite replace_keys_lacks by assumption. simpl.
    now rewrite replace_keys_copy by now apply match_key_closing.
  - apply calm_quoted. now rewrite escape_colon.
Qed.

Lemma rewritten_member key s s' :
  key_ok key = true -> rewritten s s' ->
  rewritten (QuoteJSONString key ++ ":" ++ s) (escape key ++ ":" ++ s').
Proof.
  intros H Hs k Hk. unfold key_ok in H. apply andb_true_iff in H as [Hne H].
  apply text_ok_inv in H as [Hq Hc].
  apply negb_true_iff, String.eqb_neq in Hne.
  destruct (Hs k Hk) as [E C].
  pose proof (escape_lacks _ Hq) as He.
  unfold QuoteJSONString, q. flatten. split.
  - rewrite (replace_keys_match _ _ (escape key) (s ++ k)).
    + now rewrite E.
    + apply match_key_property; [assumption | now apply escape_nonempty].
  - apply calm_quoted. now rewrite escape_colon.
Qed.

Lemma rewritten_join xs ys :
  Forall2 rewritten xs ys -> rewritten (join "," xs) (join "," ys).
Proof.
  induction 1 as [|x y xs ys Hxy Hrest IH].
  - now apply rewritten_plain.
  - destruct Hrest as [|x2 y2 xs ys H2 Hrest]; [exact Hxy|].
    change (rewritten (x ++ "," ++ join "," (x2 :: xs))
                      (y ++ "," ++ join "," (y2 :: ys))).
    apply rewritten_app; [exact Hxy|].
    apply rewritten_app; [now apply rewritten_plain | exact IH].
Qed.

(** ** The replace on the JSON text of a well-formed value *)

Lemma stringify_agrees v : well_formed v = true -> agrees v.
Proof.
  induction v as [| |b|n|s|xs IH|ps IH] using value_ind;
    unfold agrees; cbn [JSON_stringify render well_formed]; intros Hwf.
  - exact I.
  - now apply rewritten_plain.
  - destruct b; now apply rewritten_plain.
  - destruct (Number_finite n);
      [apply rewritten_plain, Number_text_ok | now apply rewritten_plain].
  - now apply rewritten_string.
  - apply rewritten_app; [now apply rewritten_plain|].
    apply rewritten_app; [|now apply rewritten_plain].
    apply rewritten_join.
    induction IH as [|x xs Hx _ IHxs]; simpl in *; [constructor|].
    apply andb_true_iff in Hwf as [Hwx Hwxs].
    constructor; [|now apply IHxs].
    specialize (Hx Hwx). unfold agrees in Hx.
    destruct (JSON_stringify x), (render x); try contradiction;
      [exact Hx | now apply rewritten_plain].
  - apply rewritten_app; [now apply rewritten_plain|].
    apply rewritten_app; [|now apply rewritten_plain].
    apply rewritten_join.
    induction IH as [|[key x] ps Hx _ IHps]; simpl in *; [constructor|].
    apply andb_true_iff in Hwf as [Hwx Hwps].
    apply andb_true_iff in Hwx as [Hkey Hwx].
    specialize (Hx Hwx). unfold agrees in Hx.
    destruct (JSON_stringify x), (render x); try contradiction; simpl.
    + constructor; [now apply rewritten_member | now apply IHps].
    + now apply IHps.
Qed.

(** On a well-formed argument, the text that [JSON.stringify] writes and the
    replace rewrites is the text of the recursive serializer. *)
Lemma replace_stringify_render v :
  well_formed v = true ->
  optional_chain (JSON_stringify v) replace_keys = render v.
Proof.
  intros H. apply stringify_agrees in H. unfold agrees in H.
  destruct (JSON_stringify v) as [s|], (render v) as [s'|];
    try contradiction; simpl; [|reflexivity].
  destruct (H "" eq_refl) as [E _].
  rewrite replace_keys_nil, !append_nil_r in E. now rewrite E.
Qed.

(** ** Templates, searching and splitting *)

Lemma template2 a b : template [a; b] = a ++ b.
Proof. unfold template; simpl. now rewrite append_nil_r. Qed.

Lemma template3 a b c : template [a; b; c] = a ++ b ++ c.
Proof. unfold template; simpl. now rewrite append_nil_r. Qed.

Lemma template4 a b c d : template [a; b; c; d] = a ++ b ++ c ++ d.
Proof. unfold template; simpl. now rewrite append_nil_r. Qed.

Lemma template6 a b c d e f :
  template [a; b; c; d; e; f] = a ++ b ++ c ++ d ++ e ++ f.
Proof. unfold template; simpl. now rewrite append_nil_r. Qed.

Lemma startsWith_append p r : startsWith (p ++ r) p = true.
Proof.
  induction p as [|c p IH]; simpl; [reflexivity|].
  now rewrite Ascii.eqb_refl, IH.
Qed.

Lemma includes_here s sub : startsWith s sub = true -> includes s sub = true.
Proof. intros H. destruct s; simpl; now rewrite H. Qed.

Lemma includes_append a sub r : includes (a ++ sub ++ r) sub = true.
Proof.
  induction a as [|c a IH]; simpl.
  - apply includes_here, startsWith_append.
  - rewrite IH. apply orb_true_r.
Qed.

Lemma endsWith_append a t : endsWith (a ++ t) t = true.
Proof.
  induction a as [|c a IH]; simpl.
  - destruct t; simpl; [reflexivity|].
    now rewrite Ascii.eqb_refl, String.eqb_refl.
  - rewrite IH. apply orb_true_r.
Qed.

Lemma split_lacks sep x : lacks sep x = true -> split sep x = [x].
Proof.
  induction x as [|c x IH]; simpl; intros H; [reflexivity|].
  apply andb_true_iff in H as [Hc Hx]. apply negb_true_iff in Hc.
  now rewrite Hc, IH.
Qed.

Lemma split_append sep x t :
  lacks sep x = true -> split sep (x ++ String sep t) = x :: split sep t.
Proof.
  induction x as [|c x IH]; simpl; intros H.
  - now rewrite Ascii.eqb_refl.
  - apply andb_true_iff in H as [Hc Hx]. apply negb_true_iff in Hc.
    now rewrite Hc, IH.
Qed.

(** Splitting a joined list at the separator gives the list back, when
    there is at least one element and no element holds the separator. *)
Lemma split_join sep xs :
  xs <> [] -> Forall (fun x => lacks sep x = true) xs ->
  split sep (join (String sep "") xs) = xs.
Proof.
  intros Hne H. induction H as [|x xs Hx Hxs IH]; [congruence|].
  destruct xs as [|y ys].
  - now apply split_lacks.
  - change (split sep (x ++ String sep (join (String sep "") (y :: ys)))
            = x :: y :: ys).
    rewrite split_append by assumption. f_equal. now apply IH.
Qed.

Lemma parse_integer_decimal z :
  parse_integer (NilZero.string_of_int (Z.to_int z)) = Some z.
Proof.
  unfold parse_integer.
  rewrite NilZero.isi.
  - simpl. now rewrite DecimalZ.of_to.
  - destruct z; simpl; try discriminate.
    intros H. injection H as H. now apply DecimalPos.Unsigned.to_uint_nonnil in H.
  - destruct z; simpl; try discriminate.
    intros H. injection H as H. now apply DecimalPos.Unsigned.to_uint_nonnil in H.
Qed.

(** *** The digits of an integer below [10 ^ 21] *)

Lemma length_uint d :
  String.length (NilEmpty.string_of_uint d) = Decimal.nb_digits d.
Proof. induction d; simpl; congruence. Qed.

Lemma of_uint_acc_lower d :
  forall acc,
    (Zpos acc * 10 ^ Z.of_nat (Decimal.nb_digits d)
     <= Zpos (Pos.of_uint_acc d acc))%Z.
Proof.
  induction d as [|d IH|d IH|d IH|d IH|d IH|d IH|d IH|d IH|d IH|d IH];
    intros acc; cbn [Decimal.nb_digits Pos.of_uint_acc];
    [simpl; lia | ..];
    rewrite Nat2Z.inj_succ, Z.pow_succ_r by lia;
    match goal with
    | |- (_ <= Zpos (Pos.of_uint_acc _ ?acc'))%Z =>
        specialize (IH acc');
        assert (0 < 10 ^ Z.of_nat (Decimal.nb_digits d))%Z
          by (apply Z.pow_pos_nonneg; lia);
        nia
    end.
Qed.

Lemma nzhead_no_zero d l : Decimal.nzhead d <> Decimal.D0 l.
Proof. induction d; simpl; try discriminate; assumption. Qed.

Lemma digits_bound p :
  (Zpos p < 10 ^ 21)%Z -> String.length (digits_of p) <= 21.
Proof.
  intros Hp. unfold digits_of. rewrite length_uint.
  pose proof (DecimalPos.Unsigned.of_to p) as Hof.
  pose proof (DecimalPos.Unsigned.to_of (Pos.to_uint p)) as Hnorm.
  rewrite Hof in Hnorm. cbn [N.to_uint] in Hnorm.
  pose proof (DecimalPos.Unsigned.to_uint_nonzero p) as Hnz.
  assert (Hacc : forall l k, Npos p = Npos (Pos.of_uint_acc l k) ->
                 Decimal.nb_digits l < 21).
  { intros l k H. injection H as H.
    pose proof (of_uint_acc_lower l k) as Hl. rewrite <- H in Hl.
    destruct (Nat.lt_ge_cases (Decimal.nb_digits l) 21) as [Hlt|Hge];
      [exact Hlt | exfalso].
    assert (10 ^ 21 <= 10 ^ Z.of_nat (Decimal.nb_digits l))%Z
      by (apply Z.pow_le_mono_r; lia).
    nia. }
  destruct (Pos.to_uint p) as [|l|l|l|l|l|l|l|l|l|l] eqn:E;
    cbn [Decimal.nb_digits]; cbn [Pos.of_uint] in Hof;
    try (symmetry in Hof; apply Hacc in Hof; lia).
  - lia.
  - exfalso. unfold Decimal.unorm in Hnorm. cbn [Decimal.nzhead] in Hnorm.
    destruct (Decimal.nzhead l) eqn:En; try discriminate Hnorm.
    + apply Hnz. exact Hnorm.
    + now apply nzhead_no_zero in En.
Qed.

Lemma strip_zeros_length s :
  String.length (strip_zeros s) <= String.length s.
Proof.
  induction s as [|c s IH]; simpl; [lia|].
  destruct (strip_zeros s); [destruct (Ascii.eqb c "0")|]; simpl in *; lia.
Qed.

Lemma strip_zeros_restore s :
  strip_zeros s
  ++ zeros (String.length s - String.length (strip_zeros s)) = s.
Proof.
  induction s as [|c s IH]; [reflexivity|].
  pose proof (strip_zeros_length s) as Hlen.
  cbn [strip_zeros String.length].
  destruct (strip_zeros s) as [|y t] eqn:E.
  - cbn [String.length append] in IH. rewrite Nat.sub_0_r in IH.
    destruct (Ascii.eqb_spec c "0"%char) as [->|Hc].
    + cbn [String.length append]. cbn [Nat.sub zeros]. now rewrite IH.
    + cbn [String.length append]. cbn [Nat.sub].
      rewrite Nat.sub_0_r. now rewrite IH.
  - cbn [String.length append] in *. cbn [Nat.sub]. now rewrite IH.
Qed.

(** An integer of magnitude below [2 ^ 53] is written with its decimal
    digits. *)
Lemma Number_toString_Int z :
  (Z.abs z < 2 ^ 53)%Z ->
  Number_toString (Int z) = NilZero.string_of_int (Z.to_int z).
Proof.
  assert (Hpos : forall p, (Zpos p < 2 ^ 53)%Z ->
    (let s := strip_zeros (digits_of p) in
     let k := Z.of_nat (String.length s) in
     let n := (0 + Z.of_nat (String.length (digits_of p)))%Z in
     if (k <=? n)%Z && (n <=? 21)%Z then s ++ zeros (Z.to_nat (n - k))
     else if (0 <? n)%Z && (n <=? 21)%Z
          then take (Z.to_nat n) s ++ "." ++ drop (Z.to_nat n) s
          else if (-6 <? n)%Z && (n <=? 0)%Z
               then "0." ++ zeros (Z.to_nat (- n)) ++ s
               else take 1 s
                    ++ (if (1 <? k)%Z then "." ++ drop 1 s else "")
                    ++ "e" ++ (if (n - 1 <? 0)%Z then "-" else "+")
                    ++ NilZero.string_of_int (Z.to_int (Z.abs (n - 1))))
    = NilZero.string_of_uint (Pos.to_uint p)).
  { intros p Hp. cbv zeta.
    pose proof (strip_zeros_length (digits_of p)) as Hk.
    assert (Hn : String.length (digits_of p) <= 21)
      by (apply digits_bound; lia).
    replace ((Z.of_nat (String.length (strip_zeros (digits_of p)))
              <=? 0 + Z.of_nat (String.length (digits_of p)))%Z
             && (0 + Z.of_nat (String.length (digits_of p)) <=? 21)%Z)
      with true
      by (symmetry; apply andb_true_iff; split; apply Z.leb_le; lia).
    replace (Z.to_nat (0 + Z.of_nat (String.length (digits_of p))
                       - Z.of_nat (String.length (strip_zeros (digits_of p)))))
      with (String.length (digits_of p)
            - String.length (strip_zeros (digits_of p))) by lia.
    rewrite strip_zeros_restore. unfold digits_of, NilZero.string_of_uint.
    pose proof (DecimalPos.Unsigned.to_uint_nonnil p).
    destruct (Pos.to_uint p); [congruence | reflexivity..]. }
  intros Hz. destruct z as [|p|p]; [reflexivity | |];
    cbn [Int Number_toString Z.to_int NilZero.string_of_int].
  - rewrite Hpos by (simpl in Hz; lia). reflexivity.
  - rewrite Hpos by (simpl in Hz; lia). reflexivity.
Qed.

Lemma parse_integer_toString z :
  (Z.abs z < 2 ^ 53)%Z ->
  parse_integer (Number_toString (Int z)) = Some z.
Proof.
  intros Hz. rewrite Number_toString_Int by assumption.
  apply parse_integer_decimal.
Qed.

Lemma entryName_unfold E id :
  entryName E id
  = E ++ (if ToBoolean (of_id id)
          then "(id: " ++ interpolate_number id ++ ")" else "").
Proof. unfold entryName. now rewrite template2, template3. Qed.

Lemma entry_unfold E F id :
  entry E F id
  = E ++ (if ToBoolean (of_id id)
          then "(id: " ++ interpolate_number id ++ ")" else "")
      ++ " { " ++ data F ++ " }".
Proof.
  unfold entry, entryName. rewrite template4, template2, template3.
  now rewrite append_assoc.
Qed.

(** ** The claims *)

(** C7: for every string [X], the empty string included, [query X] is the
    text [query { ] followed by [X] and by [ }]: plain concatenation, with
    no check of the content, so the result is ten characters longer than
    [X]. *)
Theorem query_is_concatenation :
  forall X : string,
    query X = "query { " ++ X ++ " }"
    /\ String.length (query X) = 10 + String.length X.
Proof.
  intros X. unfold query. rewrite template3. split; [reflexivity|].
  simpl. f_equal. f_equal. f_equal. f_equal. f_equal. f_equal. f_equal.
  f_equal. induction X as [|c X IH]; simpl; [reflexivity | now rewrite IH].
Qed.

(** C5: for every entity name [E], every non-empty field list [F] and
    every id, [entry E F id] is the entry name, [ { ], the data block
    [data { id attributes { <F joined by a space> } }] and [ }]; the entry
    name is [E], followed by [(id: <id>)] or by nothing; the output
    includes the data block; and the fields, when none of them holds a
    space, are read back from the joined text in the same order and with the
    same repetitions. *)
Theorem entry_data_block :
  forall (E : string) (F : list string) (id : option number),
    F <> [] ->
    entry E F id
    = entryName E id ++ " { "
        ++ ("data { id attributes { " ++ join " " F ++ " } }") ++ " }"
    /\ includes (entry E F id)
         ("data { id attributes { " ++ join " " F ++ " } }") = true
    /\ (entryName E id = E
        \/ exists n, id = Some n
             /\ entryName E id = E ++ "(id: " ++ Number_toString n ++ ")")
    /\ (Forall (fun f => lacks " " f = true) F -> split " " (join " " F) = F).
Proof.
  intros E F id HF.
  assert (Hdata : data F = "data { id attributes { " ++ join " " F ++ " } }").
  { unfold data. now rewrite template3. }
  assert (Hentry : entry E F id = entryName E id ++ " { " ++ data F ++ " }").
  { unfold entry. now rewrite template4. }
  split; [|split; [|split]].
  - now rewrite Hentry, Hdata.
  - rewrite Hentry, Hdata.
    replace (entryName E id ++ " { "
             ++ ("data { id attributes { " ++ join " " F ++ " } }") ++ " }")
      with ((entryName E id ++ " { ")
            ++ ("data { id attributes { " ++ join " " F ++ " } }") ++ " }")
      by now rewrite append_assoc.
    apply includes_append.
  - rewrite entryName_unfold.
    destruct id as [n|]; cbn [of_id ToBoolean interpolate_number].
    + destruct (Number_truthy n).
      * right. exists n. split; reflexivity.
      * left. apply append_nil_r.
    + left. apply append_nil_r.
  - now apply split_join.
Qed.

Lemma entry_data_block_witness :
  let F := ["name"; "name"; "city"] in
  F <> []
  /\ (entry "shop" F (Some (Int 7))
      = entryName "shop" (Some (Int 7)) ++ " { "
          ++ ("data { id attributes { " ++ join " " F ++ " } }") ++ " }"
      /\ includes (entry "shop" F (Some (Int 7)))
           ("data { id attributes { " ++ join " " F ++ " } }") = true
      /\ (entryName "shop" (Some (Int 7)) = "shop"
          \/ exists n, Some (Int 7) = Some n
               /\ entryName "shop" (Some (Int 7))
                  = "shop" ++ "(id: " ++ Number_toString n ++ ")")
      /\ (Forall (fun f => lacks " " f = true) F
          -> split " " (join " " F) = F)).
Proof.
  intros F.
  assert (H : F <> []) by discriminate.
  split; [exact H | exact (entry_data_block "shop" F (Some (Int 7)) H)].
Defined.

(** C1, as amended: for every entity name [E], every field list [F] and
    every id that is truthy (any number but [0], [-0] and [NaN]),
    [entry E F id] is [E], then the clause [(id: <id>)] with the number
    written by the conversion to string and no check of its range, then the
    braces and the data block; an integer id of magnitude below [2 ^ 53] is
    written with its decimal digits and is read back from them, so the text
    is the value itself; and without an id the output is [E] followed
    directly by [ { ], the data block and [ }]. *)
Theorem entry_id_clause :
  forall (E : string) (F : list string) (n : number),
    Number_truthy n = true ->
    entry E F (Some n)
    = E ++ "(id: " ++ Number_toString n ++ ")" ++ " { " ++ data F ++ " }"
    /\ startsWith (entry E F (Some n))
         (E ++ "(id: " ++ Number_toString n ++ ")") = true
    /\ (forall z, (Z.abs z < 2 ^ 53)%Z -> n = Int z ->
          Number_toString n = NilZero.string_of_int (Z.to_int z)
          /\ parse_integer (Number_toString n) = Some z)
    /\ entry E F None = E ++ " { " ++ data F ++ " }".
Proof.
  intros E F n Hn.
  assert (He : entry E F (Some n)
               = E ++ "(id: " ++ Number_toString n ++ ")" ++ " { "
                   ++ data F ++ " }").
  { rewrite entry_unfold. cbn [of_id ToBoolean interpolate_number].
    rewrite Hn. now rewrite !append_assoc. }
  split; [exact He|]. split; [|split].
  - rewrite He.
    replace (E ++ "(id: " ++ Number_toString n ++ ")" ++ " { "
             ++ data F ++ " }")
      with ((E ++ "(id: " ++ Number_toString n ++ ")") ++ " { "
            ++ data F ++ " }")
      by now rewrite !append_assoc.
    apply startsWith_append.
  - intros z Hz ->. split;
      [now apply Number_toString_Int | now apply parse_integer_toString].
  - rewrite entry_unfold. reflexivity.
Qed.

Lemma entry_id_clause_witness :
  Number_truthy (Int 7) = true
  /\ (entry "shop" ["name"] (Some (Int 7))
      = "shop" ++ "(id: " ++ Number_toString (Int 7) ++ ")" ++ " { "
          ++ data ["name"] ++ " }"
      /\ startsWith (entry "shop" ["name"] (Some (Int 7)))
           ("shop" ++ "(id: " ++ Number_toString (Int 7) ++ ")") = true
      /\ (forall z, (Z.abs z < 2 ^ 53)%Z -> Int 7 = Int z ->
            Number_toString (Int 7) = NilZero.string_of_int (Z.to_int z)
            /\ parse_integer (Number_toString (Int 7)) = Some z)
      /\ entry "shop" ["name"] None = "shop" ++ " { " ++ data ["name"] ++ " }").
Proof.
  split; [reflexivity|].
  exact (entry_id_clause "shop" ["name"] (Int 7) eq_refl).
Defined.

(** The clause for the id 7, for a negative id, for a fraction, for a
    number from [1e21] on, which is written with an exponent, and for an
    infinity. *)
Example entry_id_samples :
  entry "shop" ["name"] (Some (Int 7))
  = "shop(id: 7) { data { id attributes { name } } }"
  /\ entry "shop" ["name"] (Some (Int (-3)))
     = "shop(id: -3) { data { id attributes { name } } }"
  /\ entry "shop" ["name"] (Some (Finite false 15 (-1)))
     = "shop(id: 1.5) { data { id attributes { name } } }"
  /\ entry "shop" ["name"] (Some (Finite false 1 21))
     = "shop(id: 1e+21) { data { id attributes { name } } }"
  /\ entry "shop" ["name"] (Some Infinity)
     = "shop(id: Infinity) { data { id attributes { name } } }".
Proof. repeat split. Qed.

(** The claim C1 as the spec states it fails at the id [0]: the id is
    supplied, and the output has no [(id: 0)] after the entity name, or
    anywhere. *)
Lemma entry_id_zero_has_no_clause :
  of_id (Some (Int 0)) <> VUndefined
  /\ entry "shop" ["name"] (Some (Int 0))
     = "shop { data { id attributes { name } } }"
  /\ startsWith (entry "shop" ["name"] (Some (Int 0)))
       ("shop" ++ "(id: " ++ Number_toString (Int 0) ++ ")") = false
  /\ includes (entry "shop" ["name"] (Some (Int 0))) "(id: 0)" = false.
Proof. repeat split; try reflexivity. discriminate. Qed.

(** C9: with the id [0] supplied the clause is left out and the output is
    the output of the same call without an id; more generally the output
    with an id equals the output without one exactly when the id is falsy,
    so truthiness, not presence, decides. *)
Theorem entry_id_zero_is_no_id :
  forall (E : string) (F : list string),
    entry E F (Some (Int 0)) = entry E F None
    /\ forall n, entry E F (Some n) = entry E F None
                 <-> ToBoolean (of_id (Some n)) = false.
Proof.
  intros E F. split; [reflexivity|].
  intros n. rewrite !entry_unfold.
  cbn [of_id ToBoolean interpolate_number].
  destruct (Number_truthy n); split; intros H;
    try reflexivity; try discriminate.
  apply append_inv_head in H. discriminate H.
Qed.

(** ** The collection builder, unfolded *)

Lemma collectionName_unfold E filter pagination sort :
  collectionName E filter pagination sort
  = E ++ (if ToBoolean (of_filter filter)
             || ToBoolean (of_pagination pagination)
             || ToBoolean (of_sort sort) then "(" else "")
      ++ (if ToBoolean (of_filter filter)
          then "filters: " ++ literal (of_filter filter) ++ ", " else "")
      ++ (if ToBoolean (of_pagination pagination)
          then "pagination: " ++ literal (of_pagination pagination) ++ ", "
          else "")
      ++ (if ToBoolean (of_sort sort)
          then "sort: " ++ literal (of_sort sort) ++ ", " else "")
      ++ (if ToBoolean (of_filter filter)
             || ToBoolean (of_pagination pagination)
             || ToBoolean (of_sort sort) then ")" else "").
Proof.
  unfold collectionName, literal. cbv zeta.
  now rewrite template6, !template3.
Qed.

Lemma collectionName_clause lit E filter pagination sort :
  E ++ clause lit (contributed filter pagination sort)
  = E ++ (if ToBoolean (of_filter filter)
             || ToBoolean (of_pagination pagination)
             || ToBoolean (of_sort sort) then "(" else "")
      ++ (if ToBoolean (of_filter filter)
          then "filters: " ++ lit (of_filter filter) ++ ", " else "")
      ++ (if ToBoolean (of_pagination pagination)
          then "pagination: " ++ lit (of_pagination pagination) ++ ", "
          else "")
      ++ (if ToBoolean (of_sort sort)
          then "sort: " ++ lit (of_sort sort) ++ ", " else "")
      ++ (if ToBoolean (of_filter filter)
             || ToBoolean (of_pagination pagination)
             || ToBoolean (of_sort sort) then ")" else "").
Proof.
  unfold contributed. cbn [List.filter snd].
  destruct (ToBoolean (of_filter filter)),
           (ToBoolean (of_pagination pagination)),
           (ToBoolean (of_sort sort));
    cbn [clause map String.concat fst snd orb]; unfold param;
    flatten; reflexivity.
Qed.

Lemma truthy_has_text v :
  ToBoolean v = true -> exists j, JSON_stringify v = Some j.
Proof. destruct v; simpl; intros H; try discriminate; eauto. Qed.

Lemma Array_filter_pure {A : Type} (f : A -> bool) (xs : list A) :
  Array_filter (fun x => Normal (f x)) xs = Normal (List.filter f xs).
Proof.
  induction xs as [|x xs IH]; cbn [Array_filter List.filter bind];
    [reflexivity|].
  rewrite IH. cbn [bind]. now destruct (f x).
Qed.

Lemma collection_unfold E F filter sort pagination r :
  collection E F filter sort pagination r
  = Normal (collectionName E filter pagination sort ++ " { " ++ data F ++ " "
            ++ match r with
               | Some flags =>
                   "meta { pagination { "
                   ++ join " "
                        (List.filter
                           (fun key => flag_truthy (lookup key flags))
                           (map fst flags))
                   ++ " } }"
               | None => ""
               end ++ " }").
Proof.
  unfold collection. destruct r as [flags|].
  - cbn [of_paginationResponse ToBoolean Object_keys get bind].
    rewrite (Array_filter_pure (fun key => flag_truthy (lookup key flags))).
    cbn [bind interpolate]. now rewrite template6, template3.
  - cbn [of_paginationResponse ToBoolean bind]. now rewrite template6.
Qed.

(** Reading the flags by name gives each flag's own value when no name is
    listed twice. *)
Lemma true_flags (flags : PaginationResponse) :
  NoDup (map fst flags) ->
  List.filter (fun key => flag_truthy (lookup key flags)) (map fst flags)
  = map fst (List.filter snd flags).
Proof.
  induction flags as [|[k b] flags IH]; intros Hnd; [reflexivity|].
  cbn [map fst snd List.filter lookup] in *.
  inversion Hnd as [|? ? Hk Hnd']; subst.
  rewrite String.eqb_refl. cbn [flag_truthy].
  assert (Hrest :
    List.filter
      (fun key =>
         flag_truthy (if String.eqb k key then Some b else lookup key flags))
      (map fst flags)
    = List.filter (fun key => flag_truthy (lookup key flags))
        (map fst flags)).
  { apply filter_ext_in. intros key Hin.
    destruct (String.eqb_spec k key) as [->|]; [contradiction | reflexivity]. }
  rewrite Hrest, IH by assumption.
  now destruct b.
Qed.

(** C3, as amended: the parameter clause of [collectionName] holds the
    arguments that are truthy (a filter, a pagination, and a sort other than
    the empty string), in the order filters, pagination, sort, each as
    [<key>: <value>, ] where the value is the replaced JSON text of the
    argument; the parentheses are written exactly when one of them is;
    and a call with no filter, sort, pagination and response flags has
    neither clause nor meta block. *)
Theorem collectionName_parameters :
  forall (E : string) (filter : option (list (string * Filter)))
         (pagination : option Pagination) (sort : option SortSpec),
    collectionName E filter pagination sort
    = E ++ clause literal (contributed filter pagination sort)
    /\ (forall kv, In kv (contributed filter pagination sort) ->
          In kv (present filter pagination sort)
          /\ exists j, JSON_stringify (snd kv) = Some j
                       /\ literal (snd kv) = replace_keys j)
    /\ (present filter pagination sort = [] ->
          collectionName E filter pagination sort = E)
    /\ forall F, collection E F None None None None
                 = Normal (E ++ " { " ++ data F ++ "  }").
Proof.
  intros E filter pagination sort. split; [|split; [|split]].
  - now rewrite collectionName_clause, collectionName_unfold.
  - intros kv Hin. unfold contributed in Hin.
    apply filter_In in Hin as [Hin Htrue]. split.
    + unfold present. apply filter_In. split; [exact Hin|].
      destruct (snd kv); try discriminate; reflexivity.
    + destruct (truthy_has_text _ Htrue) as [j Hj].
      exists j. split; [exact Hj|]. unfold literal. now rewrite Hj.
  - intros H. rewrite collectionName_unfold.
    destruct filter, pagination, sort as [[s|ss]|]; try discriminate H.
    cbn. apply append_nil_r.
  - intros F. rewrite collection_unfold, collectionName_unfold.
    cbn [of_filter of_pagination of_sort ToBoolean orb].
    flatten. reflexivity.
Qed.

(** The claim C3 as the spec states it fails at the empty sort string: the
    argument is present, and contributes nothing. *)
Lemma collectionName_empty_sort_contributes_nothing :
  present None None (Some (SortOne "")) = [("sort", VStr "")]
  /\ collectionName "shops" None None (Some (SortOne "")) = "shops"
  /\ collectionName "shops" None None (Some (SortOne ""))
     <> "shops" ++ clause literal (present None None (Some (SortOne ""))).
Proof.
  split; [reflexivity|]. split; [reflexivity|].
  intros H. vm_compute in H. discriminate H.
Qed.

(** C10: with the empty string as sort, [collection] writes what it writes
    without a sort: no [sort: ] parameter, and no parentheses on account of
    it. *)
Theorem collection_empty_sort_is_no_sort :
  forall (E : string) (F : list string)
         (filter : option (list (string * Filter)))
         (pagination : option Pagination)
         (r : option PaginationResponse),
    collection E F filter (Some (SortOne "")) pagination r
    = collection E F filter None pagination r
    /\ collectionName E filter pagination (Some (SortOne ""))
       = collectionName E filter pagination None
    /\ collectionName E None None (Some (SortOne "")) = E.
Proof.
  intros E F filter pagination r.
  assert (H : forall f p, collectionName E f p (Some (SortOne ""))
                          = collectionName E f p None).
  { intros f p. rewrite !collectionName_unfold. reflexivity. }
  split; [|split].
  - now rewrite !collection_unfold, H.
  - apply H.
  - rewrite collectionName_unfold. cbn. apply append_nil_r.
Qed.

(** C4: when the response flags are supplied (an object, each name listed
    once), [collection] writes, after the data block and a space, the block
    [meta { pagination { <names> } }] whose names are the names of the
    flags set to true, in the order of the object's keys, joined by a
    space; when they are left out it writes no meta block. *)
Theorem collection_meta_block :
  forall (E : string) (F : list string)
         (filter : option (list (string * Filter))) (sort : option SortSpec)
         (pagination : option Pagination) (flags : PaginationResponse),
    NoDup (map fst flags) ->
    collection E F filter sort pagination (Some flags)
    = Normal (collectionName E filter pagination sort ++ " { " ++ data F
              ++ " "
              ++ ("meta { pagination { "
                  ++ join " " (map fst (List.filter snd flags)) ++ " } }")
              ++ " }")
    /\ collection E F filter sort pagination None
       = Normal (collectionName E filter pagination sort ++ " { " ++ data F
                 ++ "  }").
Proof.
  intros E F filter sort pagination flags Hnd. split.
  - rewrite collection_unfold, true_flags by assumption. reflexivity.
  - rewrite collection_unfold. reflexivity.
Qed.

Lemma collection_meta_block_witness :
  let flags := [("total", true); ("pageCount", false)] in
  NoDup (map fst flags)
  /\ (collection "shops" ["name"] None None None (Some flags)
      = Normal (collectionName "shops" None None None ++ " { "
                ++ data ["name"] ++ " "
                ++ ("meta { pagination { "
                    ++ join " " (map fst (List.filter snd flags)) ++ " } }")
                ++ " }")
      /\ collection "shops" ["name"] None None None None
         = Normal (collectionName "shops" None None None ++ " { "
                   ++ data ["name"] ++ "  }")).
Proof.
  intros flags.
  assert (H : NoDup (map fst flags)).
  { repeat constructor; simpl; intuition discriminate. }
  split; [exact H|].
  exact (collection_meta_block "shops" ["name"] None None None flags H).
Defined.

Example collection_meta_sample :
  collection "shops" ["name"] None None None
    (Some [("total", true); ("pageCount", false)])
  = Normal "shops { data { id attributes { name } } meta { pagination { total } } }".
Proof. reflexivity. Qed.

(** *** When the builders throw *)

Lemma each_cons {A B : Type} (f : A -> completion B) x xs :
  Throwing.each f (x :: xs)
  = (y <- f x ;; ys <- Throwing.each f xs ;; Normal (y :: ys)).
Proof. reflexivity. Qed.

Lemma each_normal {A B : Type} (f : A -> completion B) (xs : list A) :
  Forall (fun x => exists y, f x = Normal y) xs ->
  exists ys, Throwing.each f xs = Normal ys.
Proof.
  induction 1 as [|x xs [y Hy] _ [ys Hys]].
  - now exists [].
  - rewrite each_cons, Hy, Hys. cbn [bind]. now eexists.
Qed.

Lemma each_map {A B C : Type} (h : A -> B) (f : B -> completion C)
    (g : A -> C) (xs : list A) :
  Forall (fun x => f (h x) = Normal (g x)) xs ->
  Throwing.each f (map h xs) = Normal (map g xs).
Proof.
  induction 1 as [|x xs Hx _ IH]; [reflexivity|].
  cbn [map]. now rewrite each_cons, Hx, IH.
Qed.

Lemma stringify_plain v :
  Throwing.plain v = true -> exists o, Throwing.JSON_stringify v = Normal o.
Proof.
  induction v as [| |b|n|z|s|xs IH|ps IH|] using Throwing.runtime_value_ind;
    cbn [Throwing.plain Throwing.JSON_stringify]; intros Hp;
    try discriminate Hp; try (now eexists).
  - destruct (each_normal
                (fun x =>
                   text <- Throwing.JSON_stringify x ;;
                   Normal (match text with Some s => s | None => "null" end))
                xs) as [ys Hys].
    { rewrite forallb_forall in Hp. rewrite Forall_forall in IH |- *.
      intros x Hx. destruct (IH x Hx (Hp x Hx)) as [o Ho].
      rewrite Ho. cbn [bind]. now eexists. }
    rewrite Hys. cbn [bind]. now eexists.
  - destruct (each_normal
                (fun p =>
                   text <- Throwing.JSON_stringify (snd p) ;;
                   Normal (match text with
                           | Some s => [QuoteJSONString (fst p) ++ ":" ++ s]
                           | None => []
                           end))
                ps) as [ys Hys].
    { rewrite forallb_forall in Hp. rewrite Forall_forall in IH |- *.
      intros x Hx. destruct (IH x Hx (Hp x Hx)) as [o Ho].
      rewrite Ho. cbn [bind]. now eexists. }
    rewrite Hys. cbn [bind]. now eexists.
Qed.

(** On plain data the serializer that can throw returns, and returns the
    text of the serializer of the builders above. *)
Lemma stringify_lift v :
  Throwing.JSON_stringify (Throwing.lift v) = Normal (JSON_stringify v).
Proof.
  induction v as [| |b|n|s|xs IH|ps IH] using value_ind;
    cbn [Throwing.lift Throwing.JSON_stringify JSON_stringify];
    try reflexivity.
  - rewrite (each_map Throwing.lift _
               (fun x => match JSON_stringify x with
                         | Some s => s
                         | None => "null"
                         end)).
    + reflexivity.
    + apply Forall_impl with (2 := IH). intros x Hx. now rewrite Hx.
  - rewrite (each_map (fun p => (fst p, Throwing.lift (snd p))) _
               (fun p => match JSON_stringify (snd p) with
                         | Some s => [QuoteJSONString (fst p) ++ ":" ++ s]
                         | None => []
                         end)).
    + cbn [bind]. now rewrite <- flat_map_concat_map.
    + apply Forall_impl with (2 := IH). intros p Hp. cbn [fst snd].
      now rewrite Hp.
Qed.

Lemma ToBoolean_lift v : Throwing.ToBoolean (Throwing.lift v) = ToBoolean v.
Proof. now destruct v. Qed.

Lemma collectionName_lift E filter pagination sort :
  Throwing.collectionName E
    (option_map (map (fun p => (fst p, Throwing.lift (snd p)))) filter)
    pagination sort
  = Normal (collectionName E filter pagination sort).
Proof.
  unfold Throwing.collectionName, collectionName.
  replace (Throwing.of_filter
             (option_map (map (fun p => (fst p, Throwing.lift (snd p))))
                filter))
    with (Throwing.lift (of_filter filter)) by now destruct filter.
  now rewrite !stringify_lift, ToBoolean_lift.
Qed.

(** On plain data the builders that can throw return what the builders
    above return. *)
Lemma run_lift c : Throwing.run (lift_call c) = run c.
Proof.
  destruct c as [x | e f id | e f flt srt pg pr]; try reflexivity.
  cbn [lift_call Throwing.run run].
  unfold Throwing.collection, collection.
  rewrite collectionName_lift.
  destruct (ToBoolean (of_paginationResponse pr)); [|reflexivity].
  destruct (Object_keys pr) as [keys|err]; [|reflexivity].
  cbn [bind].
  destruct (Array_filter _ keys); reflexivity.
Qed.

(** C8, as amended: a call of the exported builders whose filter is plain
    data (no [BigInt] in it and no object or array that holds itself) does
    not throw: it returns a string.  [Object.keys] and the property read,
    which throw on [undefined], run under a guard that holds only for an
    object, and [JSON.stringify] returns on plain data.  Nothing is checked:
    an empty entity name or a negative id is written out like any other. *)
Theorem builders_return_on_plain_data :
  forall c : Throwing.call,
    Throwing.plain_call c = true ->
    exists s : string, Throwing.run c = Normal s.
Proof.
  intros [x | e f id | e f flt srt pg pr] Hp; cbn [Throwing.run].
  - now eexists.
  - now eexists.
  - unfold Throwing.collection, Throwing.collectionName.
    assert (Hf : exists o,
               Throwing.JSON_stringify (Throwing.of_filter flt) = Normal o).
    { destruct flt as [ps|]; [|now eexists].
      now apply stringify_plain. }
    destruct Hf as [o Ho]. rewrite Ho, !stringify_lift.
    destruct pr as [flags|];
      cbn [of_paginationResponse ToBoolean Object_keys get bind].
    + rewrite (Array_filter_pure (fun key => flag_truthy (lookup key flags))).
      cbn [bind]. now eexists.
    + now eexists.
Qed.

Lemma builders_return_on_plain_data_witness :
  let c :=
    Throwing.CallCollection "" ["name"]
      (Some [("price", Throwing.RObj [("lt", Throwing.RNum (Int (-3)))])])
      None None (Some []) in
  Throwing.plain_call c = true /\ exists s : string, Throwing.run c = Normal s.
Proof.
  intros c. split; [reflexivity|].
  exact (builders_return_on_plain_data c eq_refl).
Defined.

(** The claim C8 as the spec states it fails on a filter that
    [JSON.stringify] cannot write: a filter with a [BigInt] in it, and a
    filter whose [and] list holds the filter itself, both of the type of a
    filter, make [collection] throw. *)
Lemma collection_throws_on_unserializable_filter :
  Throwing.run
    (Throwing.CallCollection "shops" ["name"]
       (Some [("price", Throwing.RObj [("gt", Throwing.RBigInt 10)])])
       None None None)
  = Throw (TypeError "Do not know how to serialize a BigInt")
  /\ Throwing.run
       (Throwing.CallCollection "shops" ["name"]
          (Some [("and", Throwing.RArr [Throwing.RCycle])])
          None None None)
     = Throw (TypeError "Converting circular structure to JSON").
Proof. split; reflexivity. Qed.

(** Calls that make little sense return all the same, with their
    arguments written out. *)
Example malformed_calls_are_written_out :
  run (CallEntry "" ["name"] (Some (Int (-3))))
  = Normal "(id: -3) { data { id attributes { name } } }"
  /\ run (CallCollection "" [] None None None (Some []))
     = Normal " { data { id attributes {  } } meta { pagination {  } } }"
  /\ run (CallQuery "}{") = Normal "query { }{ }".
Proof. repeat split. Qed.

(** ** The output grammar *)

Lemma cat_intro (P Q : lang) a b : P a -> Q b -> cat P Q (a ++ b).
Proof. intros Ha Hb. exists a, b. auto. Qed.

Lemma Param_intro (Literal : lang) opening l :
  Literal l -> Param Literal opening (opening ++ l ++ ", ").
Proof.
  intros Hl. apply cat_intro; [reflexivity|].
  apply cat_intro; [exact Hl | reflexivity].
Qed.

Lemma opt_Param_intro (Literal : lang) (b : bool) opening l :
  Literal l ->
  opt (Param Literal opening) (if b then opening ++ l ++ ", " else "").
Proof.
  intros Hl. destruct b; [right; now apply Param_intro | left; reflexivity].
Qed.

(** Every string of [CollectionReq] ends with a brace, a space and a brace,
    whatever the open nonterminals stand for. *)
Lemma CollectionReq_ends (Name Literal FieldList FlagNames : lang) s :
  CollectionReq Name Literal FieldList FlagNames s -> endsWith s "} }" = true.
Proof.
  intros (n & r1 & -> & _ & (p & r2 & -> & _ & (b & r3 & -> & -> & H))).
  destruct H as (d & r4 & -> & Hd & (m & e & -> & Hm & ->)).
  destruct Hd as (x & y & -> & -> & (fl & z & -> & _ & ->)).
  destruct Hm as [-> | (sp & mb & -> & -> & Hmb)].
  - replace (n ++ p ++ " { "
             ++ ("data { id attributes { " ++ fl ++ " } }") ++ "" ++ " }")
      with ((n ++ p ++ " { " ++ "data { id attributes { " ++ fl ++ " } ")
            ++ "} }")
      by (flatten; reflexivity).
    apply endsWith_append.
  - destruct Hmb as (x & y & -> & -> & (fn & z & -> & _ & ->)).
    replace (n ++ p ++ " { "
             ++ ("data { id attributes { " ++ fl ++ " } }")
             ++ (" " ++ "meta { pagination { " ++ fn ++ " } }") ++ " }")
      with ((n ++ p ++ " { " ++ "data { id attributes { " ++ fl ++ " } } "
             ++ "meta { pagination { " ++ fn ++ " } ") ++ "} }")
      by (flatten; reflexivity).
    apply endsWith_append.
Qed.

(** The claim C6 as the spec states it fails on a call without response
    flags: the output has two spaces before the last brace, and no string
    of [CollectionReq] does, however the open nonterminals are read. *)
Lemma collection_without_meta_not_in_grammar :
  exists s : string,
    collection "shops" ["name"] None None None None = Normal s
    /\ s = "shops { data { id attributes { name } }  }"
    /\ ~ CollectionReq any any any any s.
Proof.
  eexists. split; [reflexivity|]. split; [reflexivity|].
  intros H. apply CollectionReq_ends in H. vm_compute in H. discriminate H.
Qed.

(** C6, as amended: every output of [collection] is a string of the
    grammar in which the space that follows the data block is written
    whether or not a meta block follows it, [Name (( ParamList ))?  {
    DataBlock   MetaBlock?  }], with the entity name as [Name] and the
    fields joined by a space as [FieldList]; without a meta block, two
    spaces stand between the data block and the last brace. *)
Theorem collection_in_spaced_grammar :
  forall (E : string) (F : list string)
         (filter : option (list (string * Filter))) (sort : option SortSpec)
         (pagination : option Pagination)
         (r : option PaginationResponse),
  exists s : string,
    collection E F filter sort pagination r = Normal s
    /\ CollectionReq_spaced (lit E) any (lit (join " " F)) any s
    /\ (r = None ->
        s = collectionName E filter pagination sort ++ " { " ++ data F
            ++ "  }").
Proof.
  intros E F filter sort pagination r.
  rewrite collection_unfold. eexists. split; [reflexivity|]. split.
  - rewrite collectionName_unfold.
    set (bf := ToBoolean (of_filter filter)).
    set (bp := ToBoolean (of_pagination pagination)).
    set (bs := ToBoolean (of_sort sort)).
    set (lf := literal (of_filter filter)).
    set (lp := literal (of_pagination pagination)).
    set (ls := literal (of_sort sort)).
    rewrite append_assoc.
    apply cat_intro; [reflexivity|].
    rewrite !append_assoc.
    set (rest := " { " ++ _).
    replace ((if bf || bp || bs then "(" else "")
             ++ (if bf then "filters: " ++ lf ++ ", " else "")
             ++ (if bp then "pagination: " ++ lp ++ ", " else "")
             ++ (if bs then "sort: " ++ ls ++ ", " else "")
             ++ (if bf || bp || bs then ")" else "") ++ rest)
      with (((if bf || bp || bs then "(" else "")
             ++ ((if bf then "filters: " ++ lf ++ ", " else "")
                 ++ (if bp then "pagination: " ++ lp ++ ", " else "")
                 ++ (if bs then "sort: " ++ ls ++ ", " else ""))
             ++ (if bf || bp || bs then ")" else "")) ++ rest)
      by now rewrite !append_assoc.
    apply cat_intro.
    + destruct (bf || bp || bs) eqn:Hnb.
      * right. apply cat_intro; [reflexivity|].
        apply cat_intro; [|reflexivity].
        apply cat_intro; [now apply opt_Param_intro|].
        apply cat_intro; now apply opt_Param_intro.
      * apply orb_false_iff in Hnb as [Hnb ->].
        apply orb_false_iff in Hnb as [-> ->]. left. reflexivity.
    + subst rest. apply cat_intro; [reflexivity|].
      apply cat_intro.
      * unfold data. rewrite template3.
        apply cat_intro; [reflexivity|]. apply cat_intro; reflexivity.
      * apply cat_intro; [reflexivity|].
        apply cat_intro; [|reflexivity].
        destruct r as [flags|]; [right | left; reflexivity].
        apply cat_intro; [reflexivity|]. apply cat_intro; [exact I | reflexivity].
  - intros ->. reflexivity.
Qed.

(** ** The literals of the parameter clause *)

(** C2, as amended: when every property name of the filter, pagination
    and sort arguments is non-empty, and no property name or string in them
    holds a double quote or begins with a colon, the literal that
    [collectionName] writes for each argument is the compact text of the
    argument (no space between its tokens) with the quotes of every
    property name removed and every string still in quotes; so the filter
    with [name] mapped to [eq] mapped to the string [shop] gives the clause
    [filters: {name:{eq:Qshop Q}}, ] with Q the double quote and no space
    inside the braces. *)
Theorem collection_literals :
  forall (E : string) (filter : option (list (string * Filter)))
         (pagination : option Pagination) (sort : option SortSpec),
    well_formed (of_filter filter) = true ->
    well_formed (of_pagination pagination) = true ->
    well_formed (of_sort sort) = true ->
    (forall v, In v [of_filter filter; of_pagination pagination; of_sort sort]
               -> optional_chain (JSON_stringify v) replace_keys = render v)
    /\ collectionName E filter pagination sort
       = E ++ clause (fun v => interpolate (render v))
                (contributed filter pagination sort)
    /\ collection "shops" ["name"]
         (Some [("name", VObj [("eq", VStr "shop")])]) None None None
       = Normal ("shops(filters: {name:{eq:" ++ q ++ "shop" ++ q
                 ++ "}}, ) { data { id attributes { name } }  }").
Proof.
  intros E filter pagination sort Hf Hp Hs. split; [|split].
  - intros v [<- | [<- | [<- | []]]]; now apply replace_stringify_render.
  - rewrite collectionName_clause, collectionName_unfold. unfold literal.
    now rewrite !replace_stringify_render by assumption.
  - reflexivity.
Qed.

Lemma collection_literals_witness :
  let filter := Some [("name", VObj [("eq", VStr "shop")]);
                      ("or", VArr [VObj [("open", VBool true)]; VNull])] in
  let pagination := Some [("page", Int 1); ("pageSize", Int 10)] in
  let sort := Some (SortMany ["name:asc"; "city:desc"]) in
  well_formed (of_filter filter) = true
  /\ well_formed (of_pagination pagination) = true
  /\ well_formed (of_sort sort) = true
  /\ ((forall v,
         In v [of_filter filter; of_pagination pagination; of_sort sort]
         -> optional_chain (JSON_stringify v) replace_keys = render v)
      /\ collectionName "shops" filter pagination sort
         = "shops" ++ clause (fun v => interpolate (render v))
                        (contributed filter pagination sort)
      /\ collection "shops" ["name"]
           (Some [("name", VObj [("eq", VStr "shop")])]) None None None
         = Normal ("shops(filters: {name:{eq:" ++ q ++ "shop" ++ q
                   ++ "}}, ) { data { id attributes { name } }  }")).
Proof.
  intros filter pagination sort.
  split; [reflexivity|]. split; [reflexivity|]. split; [reflexivity|].
  exact (collection_literals "shops" filter pagination sort
           eq_refl eq_refl eq_refl).
Defined.

(** The claim C2 as the spec states it fails twice.  The clause of the
    spec's own example, written with a space after each colon, is not in
    the output, which has none.  And a string that begins with a colon and
    follows another string is taken for a property name: the array of the
    two sort keys [name:asc] and [:x] comes out as one string. *)
Lemma collection_literal_is_not_as_claimed :
  (exists out : string,
     collection "shops" ["name"]
       (Some [("name", VObj [("eq", VStr "shop")])]) None None None
     = Normal out
     /\ includes out ("filters: {name: {eq: " ++ q ++ "shop" ++ q ++ "}}")
        = false)
  /\ literal (of_sort (Some (SortMany ["name:asc"; ":x"])))
     = "[" ++ q ++ "name:asc,:x" ++ q ++ "]"
  /\ render (of_sort (Some (SortMany ["name:asc"; ":x"])))
     = Some ("[" ++ q ++ "name:asc" ++ q ++ "," ++ q ++ ":x" ++ q ++ "]").
Proof.
  split; [|split; reflexivity].
  eexists. split; reflexivity.
Qed.

Example collection_full_sample :
  collection "shops" ["name"; "city"]
    (Some [("name", VObj [("eq", VStr "shop")])])
    (Some (SortOne "name:asc"))
    (Some [("page", Int 1); ("pageSize", Int 10)])
    (Some [("total", true); ("pageCount", false)])
  = Normal ("shops(filters: {name:{eq:" ++ q ++ "shop" ++ q
            ++ "}}, pagination: {page:1,pageSize:10}, sort: " ++ q
            ++ "name:asc" ++ q
            ++ ", ) { data { id attributes { name city } } "
            ++ "meta { pagination { total } } }").
Proof. reflexivity. Qed.

(** ** Further properties of the builders *)

Lemma length_append (a b : string) :
  String.length (a ++ b) = String.length a + String.length b.
Proof. induction a as [|c a IH]; simpl; [reflexivity | now rewrite IH]. Qed.

Lemma append_inv_tail (a b c : string) : a ++ c = b ++ c -> a = b.
Proof.
  revert b. induction a as [|x a IH]; intros [|y b] H; simpl in H.
  - reflexivity.
  - apply (f_equal String.length) in H. simpl in H.
    rewrite length_append in H. lia.
  - apply (f_equal String.length) in H. simpl in H.
    rewrite length_append in H. lia.
  - injection H as -> H. f_equal. now apply IH.
Qed.

Lemma startsWith_spec s p :
  startsWith s p = true <-> exists r, s = p ++ r.
Proof.
  split.
  - revert s. induction p as [|a p IH]; intros s H.
    + now exists s.
    + destruct s as [|b s]; [discriminate|]. simpl in H.
      apply andb_true_iff in H as [Hab Hs]. apply Ascii.eqb_eq in Hab.
      destruct (IH _ Hs) as [r ->]. exists r. now subst.
  - intros [r ->]. apply startsWith_append.
Qed.

Lemma includes_spec s sub :
  includes s sub = true <-> exists a b, s = a ++ sub ++ b.
Proof.
  split.
  - induction s as [|c s IH]; simpl; intros H.
    + rewrite orb_false_r in H. apply startsWith_spec in H as [r Hr].
      now exists "", r.
    + apply orb_true_iff in H as [H | H].
      * apply startsWith_spec in H as [r Hr]. now exists "", r.
      * destruct (IH H) as (a & b & ->). now exists (String c a), b.
  - intros (a & b & ->). apply includes_append.
Qed.

Lemma includes_within a s b sub :
  includes s sub = true -> includes (a ++ s ++ b) sub = true.
Proof.
  intros H. apply includes_spec in H as (x & y & ->).
  replace (a ++ (x ++ sub ++ y) ++ b) with ((a ++ x) ++ sub ++ (y ++ b))
    by now rewrite !append_assoc.
  apply includes_append.
Qed.

Lemma join_In sep f F :
  In f F -> exists a b, join sep F = a ++ f ++ b.
Proof.
  induction F as [|x F IH]; [contradiction|]. intros [-> | Hin].
  - destruct F as [|y F].
    + exists "", "". simpl. now rewrite append_nil_r.
    + exists "", (sep ++ join sep (y :: F)). reflexivity.
  - destruct F as [|y F]; [contradiction|].
    destruct (IH Hin) as (a & b & Hab).
    exists (x ++ sep ++ a), b.
    change (x ++ sep ++ join sep (y :: F) = (x ++ sep ++ a) ++ f ++ b).
    now rewrite Hab, !append_assoc.
Qed.

(** X1: [query] is one-to-one: two contents give the same query only when
    they are the same content. *)
Theorem query_injective :
  forall X Y : string, query X = query Y <-> X = Y.
Proof.
  intros X Y. split; [|now intros ->].
  unfold query. rewrite !template3. intros H.
  apply append_inv_head in H. now apply append_inv_tail in H.
Qed.

(** X2: every element of the field list stands in the output of [entry]
    and of [collection] as it is; a field that is itself the output of
    [entry] or [collection] is thereby nested unchanged. *)
Theorem fields_are_embedded :
  forall (E : string) (F : list string) (f : string),
    In f F ->
    (forall id, includes (entry E F id) f = true)
    /\ (forall filter sort pagination r,
          exists out,
            collection E F filter sort pagination r = Normal out
            /\ includes out f = true)
    /\ (forall E' F' id', f = entry E' F' id' ->
          includes (query (entry E F None)) (entry E' F' id') = true).
Proof.
  intros E F f Hin.
  assert (Hdata : exists a b, data F = a ++ f ++ b).
  { destruct (join_In " " f F Hin) as (a & b & Hab).
    exists ("data { id attributes { " ++ a), (b ++ " } }").
    unfold data. now rewrite template3, Hab, !append_assoc. }
  assert (Hinc : includes (data F) f = true) by now apply includes_spec.
  assert (Hentry : forall id, includes (entry E F id) f = true).
  { intros id. unfold entry. rewrite template4.
    replace (entryName E id ++ " { " ++ data F ++ " }")
      with ((entryName E id ++ " { ") ++ data F ++ " }")
      by now rewrite !append_assoc.
    now apply includes_within. }
  split; [exact Hentry|]. split.
  - intros filter sort pagination r. rewrite collection_unfold.
    eexists. split; [reflexivity|].
    match goal with
    | |- includes (?n ++ " { " ++ data F ++ ?rest) f = true =>
        replace (n ++ " { " ++ data F ++ rest)
          with ((n ++ " { ") ++ data F ++ rest)
          by now rewrite !append_assoc
    end.
    now apply includes_within.
  - intros E' F' id' <-. unfold query. rewrite template3.
    now apply includes_within.
Qed.

Lemma fields_are_embedded_witness :
  let inner := entry "owner" ["name"] None in
  In inner ["name"; inner]
  /\ ((forall id, includes (entry "shop" ["name"; inner] id) inner = true)
      /\ (forall filter sort pagination r,
            exists out,
              collection "shop" ["name"; inner] filter sort pagination r
              = Normal out
              /\ includes out inner = true)
      /\ (forall E' F' id', inner = entry E' F' id' ->
            includes (query (entry "shop" ["name"; inner] None))
              (entry E' F' id') = true)).
Proof.
  intros inner.
  assert (H : In inner ["name"; inner]) by (right; left; reflexivity).
  split; [exact H | exact (fields_are_embedded "shop" _ inner H)].
Defined.

(** *** What the replace can and cannot change *)

Lemma span_spec t g r :
  span_not_dquote t = (g, r) -> t = g ++ r /\ lacks dquote g = true.
Proof.
  revert g r. induction t as [|c t IH]; simpl; intros g r H.
  - injection H as <- <-. now split.
  - destruct (Ascii.eqb c dquote) eqn:Hc.
    + injection H as <- <-. now split.
    + destruct (span_not_dquote t) as [g1 r1].
      injection H as <- <-. destruct (IH _ _ eq_refl) as [-> Hg].
      split; [reflexivity|]. simpl. now rewrite Hc.
Qed.

(** A match is a double quote, a non-empty run free of double quotes, a
    double quote and a colon. *)
Lemma match_key_inv s g r :
  match_key s = Some (g, r) ->
  s = String dquote (g ++ String dquote (String colon r))
  /\ lacks dquote g = true /\ g <> "".
Proof.
  unfold match_key. destruct s as [|c t]; [discriminate|].
  destruct (Ascii.eqb c dquote) eqn:Hc; [|discriminate].
  apply Ascii.eqb_eq in Hc. subst c.
  destruct (span_not_dquote t) as [g1 r1] eqn:E.
  apply span_spec in E as [-> Hg].
  destruct g1 as [|g0 g1]; [discriminate|].
  destruct r1 as [|c1 [|c2 r1]]; try discriminate.
  destruct (Ascii.eqb c1 dquote) eqn:H1; [|discriminate].
  destruct (Ascii.eqb c2 colon) eqn:H2; [|discriminate].
  apply Ascii.eqb_eq in H1, H2. subst c1 c2. simpl.
  intros H. injection H as <- <-. repeat split; [assumption | discriminate].
Qed.

Lemma remove_append a x y : remove a (x ++ y) = remove a x ++ remove a y.
Proof.
  induction x as [|c x IH]; simpl; [reflexivity|].
  destruct (Ascii.eqb c a); simpl; now rewrite IH.
Qed.

Lemma remove_lacks a x : lacks a x = true -> remove a x = x.
Proof.
  induction x as [|c x IH]; simpl; intros H; [reflexivity|].
  apply andb_true_iff in H as [Hc Hx]. apply negb_true_iff in Hc.
  now rewrite Hc, IH.
Qed.

Lemma replace_keys_erases_quotes_only n :
  forall s, String.length s <= n ->
    remove dquote (replace_keys s) = remove dquote s
    /\ String.length (replace_keys s) <= String.length s.
Proof.
  induction n as [|n IH]; intros s Hn.
  - destruct s; [|simpl in Hn; lia]. rewrite replace_keys_nil. now split.
  - destruct s as [|c t]; [rewrite replace_keys_nil; now split|].
    destruct (match_key (String c t)) as [[g r]|] eqn:Hm.
    + rewrite (replace_keys_match _ _ _ _ Hm).
      apply match_key_inv in Hm as (Hs & Hg & _).
      assert (Hlen : String.length (String c t)
                     = 3 + String.length g + String.length r).
      { rewrite Hs. simpl. rewrite length_append. simpl. lia. }
      destruct (IH r) as [Hrem Hle]; [lia|].
      split.
      * rewrite Hs. cbn [remove]. rewrite Ascii.eqb_refl.
        rewrite !remove_append. cbn [remove].
        rewrite Ascii.eqb_refl, Hrem, (remove_lacks _ _ Hg).
        reflexivity.
      * rewrite Hlen, !length_append. simpl. lia.
    + rewrite (replace_keys_copy _ _ Hm).
      destruct (IH t) as [Hrem Hle]; [simpl in Hn; lia|].
      split; [|simpl; lia].
      simpl. now rewrite Hrem.
Qed.

(** X3: the replace takes away double quotes and nothing else: with the
    double quotes erased, its result and its argument are the same text;
    so every other character is kept, in order, and the result is never
    longer than the argument. *)
Theorem replace_changes_quotes_only :
  forall s : string,
    remove dquote (replace_keys s) = remove dquote s
    /\ String.length (replace_keys s) <= String.length s.
Proof.
  intros s. now apply (replace_keys_erases_quotes_only (String.length s)).
Qed.

(** X4: a text in which no double quote is followed by a colon is left as
    it is by the replace. *)
Theorem replace_without_quote_colon :
  forall s : string,
    includes s (q ++ ":") = false -> replace_keys s = s.
Proof.
  induction s as [|c t IH]; intros H; [apply replace_keys_nil|].
  destruct (match_key (String c t)) as [[g r]|] eqn:Hm.
  - apply match_key_inv in Hm as (Hs & _ & _). exfalso.
    rewrite Hs in H.
    replace (String dquote (g ++ String dquote (String colon r)))
      with (String dquote g ++ (q ++ ":") ++ r) in H
      by reflexivity.
    rewrite includes_append in H. discriminate H.
  - rewrite (replace_keys_copy _ _ Hm). f_equal. apply IH.
    simpl in H. now apply orb_false_iff in H as [_ H].
Qed.

Lemma replace_without_quote_colon_witness :
  let s := "[" ++ q ++ "name:asc" ++ q ++ "," ++ q ++ "city:desc" ++ q ++ "]" in
  includes s (q ++ ":") = false /\ replace_keys s = s.
Proof.
  intros s.
  assert (H : includes s (q ++ ":") = false) by reflexivity.
  split; [exact H | exact (replace_without_quote_colon s H)].
Defined.

(** *** Sort keys *)

Lemma literal_string s :
  lacks dquote s = true -> literal (VStr s) = q ++ escape s ++ q.
Proof.
  intros H. pose proof (escape_lacks _ H) as He.
  unfold literal. cbn [JSON_stringify optional_chain interpolate].
  unfold QuoteJSONString, q. cbn [append].
  rewrite replace_keys_copy by now apply match_key_opening.
  rewrite replace_keys_lacks by assumption.
  rewrite replace_keys_copy by now apply match_key_closing.
  now rewrite replace_keys_nil.
Qed.

Lemma escape_verbatim s : verbatim s = true -> escape s = s.
Proof.
  induction s as [|c s IH]; simpl; intros H; [reflexivity|].
  apply andb_true_iff in H as [Hc Hs]. rewrite (IH Hs).
  destruct c as [[] [] [] [] [] [] [] []];
    solve [reflexivity | discriminate Hc].
Qed.

Lemma verbatim_lacks s : verbatim s = true -> lacks dquote s = true.
Proof.
  induction s as [|c s IH]; simpl; intros H; [reflexivity|].
  apply andb_true_iff in H as [Hc Hs]. rewrite (IH Hs).
  unfold verbatim_char in Hc.
  apply andb_true_iff in Hc as [Hc _]. apply andb_true_iff in Hc as [_ Hc].
  now rewrite Hc.
Qed.

(** X5: a sort given as one string that is not empty and holds no control
    character, double quote or backslash is written between double quotes
    exactly as it is, colons included, even a leading one; alone it gives
    the clause [(sort: Q<sort>Q, )], Q being the double quote. *)
Theorem sort_string_is_quoted_verbatim :
  forall (E s : string),
    s <> "" -> verbatim s = true ->
    literal (of_sort (Some (SortOne s))) = q ++ s ++ q
    /\ collectionName E None None (Some (SortOne s))
       = E ++ "(sort: " ++ q ++ s ++ q ++ ", )".
Proof.
  intros E s Hne Hv.
  assert (Hl : literal (VStr s) = q ++ s ++ q).
  { rewrite literal_string by now apply verbatim_lacks.
    now rewrite escape_verbatim. }
  split; [exact Hl|].
  rewrite collectionName_unfold.
  cbn [of_filter of_pagination of_sort ToBoolean orb].
  apply String.eqb_neq in Hne. rewrite Hne. cbn [negb].
  rewrite Hl. flatten. reflexivity.
Qed.

Lemma sort_string_is_quoted_verbatim_witness :
  ":name:asc" <> "" /\ verbatim ":name:asc" = true
  /\ (literal (of_sort (Some (SortOne ":name:asc"))) = q ++ ":name:asc" ++ q
      /\ collectionName "shops" None None (Some (SortOne ":name:asc"))
         = "shops" ++ "(sort: " ++ q ++ ":name:asc" ++ q ++ ", )").
Proof.
  assert (H1 : ":name:asc" <> "") by discriminate.
  assert (H2 : verbatim ":name:asc" = true) by reflexivity.
  split; [exact H1|]. split; [exact H2|].
  exact (sort_string_is_quoted_verbatim "shops" ":name:asc" H1 H2).
Defined.

(** X6: in a sort given as two strings of which the second begins with a
    colon, the replace takes the quote that closes the first string, the
    comma and the quote that opens the second for a property name, and
    removes the two quotes: the array of two strings comes out as an array
    of one. *)
Theorem sort_pair_with_leading_colon :
  forall a b : string,
    lacks dquote a = true -> lacks dquote b = true ->
    literal (of_sort (Some (SortMany [a; String colon b])))
    = "[" ++ q ++ escape a ++ ",:" ++ escape b ++ q ++ "]"
    /\ render (of_sort (Some (SortMany [a; String colon b])))
       = Some ("[" ++ q ++ escape a ++ q ++ "," ++ q ++ ":" ++ escape b
               ++ q ++ "]").
Proof.
  intros a b Ha Hb.
  pose proof (escape_lacks _ Ha) as Hea.
  pose proof (escape_lacks _ Hb) as Heb.
  assert (Hcolon : escape (String colon b) = String colon (escape b))
    by reflexivity.
  split.
  - unfold literal.
    cbn [of_sort map JSON_stringify optional_chain interpolate join].
    unfold QuoteJSONString, q. rewrite Hcolon. flatten.
    rewrite replace_keys_copy by now apply match_key_other.
    rewrite replace_keys_copy by now apply match_key_opening.
    rewrite replace_keys_lacks by assumption.
    rewrite (replace_keys_match _ _ ","
               (escape b ++ String dquote "]")).
    + rewrite replace_keys_lacks by assumption.
      rewrite replace_keys_copy by now apply match_key_closing.
      rewrite replace_keys_copy by now apply match_key_other.
      rewrite replace_keys_nil. flatten. reflexivity.
    + now apply (match_key_property ",").
  - cbn [of_sort map render join]. rewrite Hcolon.
    unfold q. flatten. reflexivity.
Qed.

Lemma sort_pair_with_leading_colon_witness :
  lacks dquote "name:asc" = true /\ lacks dquote "x" = true
  /\ (literal (of_sort (Some (SortMany ["name:asc"; String colon "x"])))
      = "[" ++ q ++ escape "name:asc" ++ ",:" ++ escape "x" ++ q ++ "]"
      /\ render (of_sort (Some (SortMany ["name:asc"; String colon "x"])))
         = Some ("[" ++ q ++ escape "name:asc" ++ q ++ "," ++ q ++ ":"
                 ++ escape "x" ++ q ++ "]")).
Proof.
  split; [reflexivity|]. split; [reflexivity|].
  exact (sort_pair_with_leading_colon "name:asc" "x" eq_refl eq_refl).
Defined.

(** *** The clause and the meta block at their edges *)

Lemma no_flag_is_true (flags : PaginationResponse) :
  forallb (fun p => negb (snd p)) flags = true ->
  forall key, flag_truthy (lookup key flags) = false.
Proof.
  induction flags as [|[k b] flags IH]; simpl; intros H key; [reflexivity|].
  apply andb_true_iff in H as [Hb Hrest]. apply negb_true_iff in Hb.
  subst b. destruct (String.eqb k key); [reflexivity | now apply IH].
Qed.

(** X7: response flags that are supplied but hold no true flag (an empty
    object, or every flag false) still give a meta block, with nothing
    between its inner braces. *)
Theorem collection_meta_block_without_true_flag :
  forall (E : string) (F : list string)
         (filter : option (list (string * Filter))) (sort : option SortSpec)
         (pagination : option Pagination) (flags : PaginationResponse),
    forallb (fun p => negb (snd p)) flags = true ->
    collection E F filter sort pagination (Some flags)
    = Normal (collectionName E filter pagination sort ++ " { " ++ data F
              ++ " meta { pagination {  } } }").
Proof.
  intros E F filter sort pagination flags H.
  rewrite collection_unfold.
  assert (Hnone :
    List.filter (fun key => flag_truthy (lookup key flags)) (map fst flags)
    = []).
  { induction (map fst flags) as [|k ks IH]; [reflexivity|].
    simpl. now rewrite (no_flag_is_true _ H). }
  rewrite Hnone. reflexivity.
Qed.

Lemma collection_meta_block_without_true_flag_witness :
  let flags := [("total", false); ("pageCount", false)] in
  forallb (fun p => negb (snd p)) flags = true
  /\ collection "shops" ["name"] None None None (Some flags)
     = Normal (collectionName "shops" None None None ++ " { "
               ++ data ["name"] ++ " meta { pagination {  } } }").
Proof.
  intros flags.
  assert (H : forallb (fun p => negb (snd p)) flags = true) by reflexivity.
  split; [exact H|].
  exact (collection_meta_block_without_true_flag
           "shops" ["name"] None None None flags H).
Defined.

(** X8: a filter that is supplied always opens the parameter clause,
    whatever it holds, the empty object included: the output of
    [collectionName] begins with the entity name and [(filters: {]. *)
Theorem supplied_filter_opens_the_clause :
  forall (E : string) (f : list (string * Filter))
         (pagination : option Pagination) (sort : option SortSpec),
    startsWith (collectionName E (Some f) pagination sort)
      (E ++ "(filters: {") = true
    /\ collectionName E (Some []) None None = E ++ "(filters: {}, )".
Proof.
  intros E f pagination sort. split.
  - rewrite collectionName_unfold.
    cbn [of_filter ToBoolean orb].
    unfold literal at 1.
    cbn [JSON_stringify optional_chain interpolate append].
    rewrite replace_keys_copy by now apply match_key_other.
    apply startsWith_spec. eexists. flatten. reflexivity.
  - rewrite collectionName_unfold. cbn. reflexivity.
Qed.

Lemma params_end_with_comma (lit : value -> string) (L : list (string * value)) :
  L <> [] ->
  exists X, String.concat ""
              (map (fun kv => param (fst kv) (lit (snd kv))) L) = X ++ ", ".
Proof.
  induction L as [|x L IH]; [congruence|]. intros _.
  destruct L as [|y L].
  - exists (fst x ++ ": " ++ lit (snd x)). cbn [map String.concat].
    unfold param. now rewrite !append_assoc.
  - destruct IH as [X HX]; [discriminate|].
    exists (param (fst x) (lit (snd x)) ++ X).
    change (param (fst x) (lit (snd x)) ++ "" ++
            String.concat ""
              (map (fun kv => param (fst kv) (lit (snd kv))) (y :: L))
            = (param (fst x) (lit (snd x)) ++ X) ++ ", ").
    rewrite HX. cbn [append]. now rewrite append_assoc.
Qed.

(** X9: whenever one of filter, pagination and sort is truthy, the output
    of [collectionName] ends with a comma, a space and the closing
    parenthesis: the last parameter keeps its trailing comma. *)
Theorem parameter_clause_ends_with_comma :
  forall (E : string) (filter : option (list (string * Filter)))
         (pagination : option Pagination) (sort : option SortSpec),
    ToBoolean (of_filter filter) || ToBoolean (of_pagination pagination)
    || ToBoolean (of_sort sort) = true ->
    endsWith (collectionName E filter pagination sort) ", )" = true.
Proof.
  intros E filter pagination sort H.
  rewrite collectionName_unfold, <- (collectionName_clause literal).
  assert (Hne : contributed filter pagination sort <> []).
  { unfold contributed. cbn [List.filter snd].
    destruct (ToBoolean (of_filter filter)),
             (ToBoolean (of_pagination pagination)),
             (ToBoolean (of_sort sort));
      solve [discriminate | discriminate H]. }
  destruct (params_end_with_comma literal _ Hne) as [X HX].
  unfold clause.
  destruct (contributed filter pagination sort) as [|kv L]; [congruence|].
  rewrite HX.
  replace (E ++ "(" ++ (X ++ ", ") ++ ")") with ((E ++ "(" ++ X) ++ ", )")
    by (flatten; reflexivity).
  apply endsWith_append.
Qed.

Lemma parameter_clause_ends_with_comma_witness :
  let pagination := Some [("page", Int 1)] in
  ToBoolean (of_filter None) || ToBoolean (of_pagination pagination)
  || ToBoolean (of_sort None) = true
  /\ endsWith (collectionName "shops" None pagination None) ", )" = true.
Proof.
  intros pagination. split; [reflexivity|].
  exact (parameter_clause_ends_with_comma "shops" None pagination None
           eq_refl).
Defined.

(** *** The text of a number *)

Lemma lacks_split_inj c a b x y :
  lacks c a = true -> lacks c b = true ->
  a ++ String c x = b ++ String c y -> a = b.
Proof.
  revert b. induction a as [|d a IH]; intros [|e b] Ha Hb H; simpl in *.
  - reflexivity.
  - injection H as <- _. apply andb_true_iff in Hb as [Hb _].
    now rewrite Ascii.eqb_refl in Hb.
  - injection H as -> _. apply andb_true_iff in Ha as [Ha _].
    now rewrite Ascii.eqb_refl in Ha.
  - injection H as -> H.
    apply andb_true_iff in Ha as [_ Ha]. apply andb_true_iff in Hb as [_ Hb].
    f_equal. now apply IH.
Qed.

(** X10: the integer id can be told from the output of [entry]: for one
    entity name and one field list, two integer ids of magnitude below
    [2 ^ 53] give the same output only when they are the same integer. *)
Theorem entry_id_is_recoverable :
  forall (E : string) (F : list string) (a b : Z),
    (Z.abs a < 2 ^ 53)%Z -> (Z.abs b < 2 ^ 53)%Z ->
    (entry E F (Some (Int a)) = entry E F (Some (Int b)) <-> a = b).
Proof.
  intros E F a b Ha Hb. split; [|now intros ->].
  rewrite !entry_unfold. cbn [of_id ToBoolean interpolate_number].
  intros H. apply append_inv_head in H.
  assert (Htruthy : forall z, Number_truthy (Int z) = negb (Z.eqb z 0))
    by (now intros [| |]).
  rewrite !Htruthy in H.
  destruct (Z.eqb a 0) eqn:Ea; destruct (Z.eqb b 0) eqn:Eb;
    cbn [negb] in H.
  - apply Z.eqb_eq in Ea, Eb. congruence.
  - discriminate H.
  - discriminate H.
  - rewrite !append_assoc in H. apply append_inv_head in H.
    change (Number_toString (Int a) ++ String ")" " { " ++ data F ++ " }"
            = Number_toString (Int b) ++ String ")" " { " ++ data F ++ " }")
      in H.
    assert (Hab : Number_toString (Int a) = Number_toString (Int b)).
    { revert H. apply lacks_split_inj; now apply Number_lacks. }
    apply (f_equal parse_integer) in Hab.
    rewrite !parse_integer_toString in Hab by assumption. congruence.
Qed.

Lemma entry_id_is_recoverable_witness :
  (Z.abs 7 < 2 ^ 53)%Z /\ (Z.abs (-7) < 2 ^ 53)%Z
  /\ (entry "shop" ["name"] (Some (Int 7))
      = entry "shop" ["name"] (Some (Int (-7))) <-> 7%Z = (-7)%Z).
Proof.
  assert (H1 : (Z.abs 7 < 2 ^ 53)%Z) by reflexivity.
  assert (H2 : (Z.abs (-7) < 2 ^ 53)%Z) by reflexivity.
  split; [exact H1|]. split; [exact H2|].
  exact (entry_id_is_recoverable "shop" ["name"] 7 (-7) H1 H2).
Defined.

(** *** Braces *)

Lemma count_append c a b : count c (a ++ b) = count c a + count c b.
Proof.
  induction a as [|x a IH]; simpl; [reflexivity|]. rewrite IH. lia.
Qed.

Lemma count_lacks c s : lacks c s = true -> count c s = 0.
Proof.
  induction s as [|x s IH]; simpl; intros H; [reflexivity|].
  apply andb_true_iff in H as [Hx Hs]. apply negb_true_iff in Hx.
  now rewrite Hx, IH.
Qed.

Lemma count_join c sep L :
  Ascii.eqb sep c = false ->
  count c (join (String sep "") L) = list_sum (map (count c) L).
Proof.
  intros Hsep. induction L as [|x L IH]; [reflexivity|].
  destruct L as [|y L].
  - simpl. lia.
  - change (count c (x ++ String sep (join (String sep "") (y :: L)))
            = count c x + list_sum (map (count c) (y :: L))).
    rewrite count_append. cbn [count]. rewrite Hsep, IH. reflexivity.
Qed.

(** [entry] writes three braces of each kind around its arguments. *)
Lemma entry_count c E F id :
  c = "{"%char \/ c = "}"%char ->
  count c (entry E F id) = count c E + list_sum (map (count c) F) + 3.
Proof.
  intros Hc.
  assert (Hid : count c (if ToBoolean (of_id id)
                         then "(id: " ++ interpolate_number id ++ ")"
                         else "") = 0).
  { destruct (ToBoolean (of_id id)); [|reflexivity].
    apply count_lacks. rewrite !lacks_append.
    destruct id as [n|]; cbn [interpolate_number].
    - rewrite (Number_lacks c n) by (destruct Hc; subst c; reflexivity).
      destruct Hc; subst c; reflexivity.
    - destruct Hc; subst c; reflexivity. }
  rewrite entry_unfold. unfold data. rewrite template3.
  rewrite !count_append, Hid.
  rewrite (count_join c " ") by (destruct Hc; subst c; reflexivity).
  destruct Hc; subst c; cbn [count Ascii.eqb Bool.eqb]; lia.
Qed.

Lemma balanced_sum F :
  Forall balanced F ->
  list_sum (map (count "{") F) = list_sum (map (count "}") F).
Proof.
  induction 1 as [|x F Hx _ IH]; [reflexivity|].
  simpl. unfold balanced in Hx. now rewrite Hx, IH.
Qed.

(** X11: [entry] and [query] add as many opening as closing braces: when
    the entity name and every field have as many opening as closing
    braces, so have the output of [entry] and the query made of it,
    whatever the id. *)
Theorem entry_braces_are_balanced :
  forall (E : string) (F : list string) (id : option number),
    balanced E -> Forall balanced F ->
    balanced (entry E F id) /\ balanced (query (entry E F id)).
Proof.
  intros E F id HE HF.
  assert (H : balanced (entry E F id)).
  { unfold balanced. rewrite !entry_count by auto.
    unfold balanced in HE. now rewrite HE, (balanced_sum F HF). }
  split; [exact H|].
  unfold balanced, query. rewrite template3, !count_append.
  unfold balanced in H. rewrite H. cbn [count Ascii.eqb Bool.eqb]. lia.
Qed.

Lemma entry_braces_are_balanced_witness :
  let F := ["name"; entry "owner" ["name"] None] in
  balanced "shop" /\ Forall balanced F
  /\ (balanced (entry "shop" F (Some (Int 7)))
      /\ balanced (query (entry "shop" F (Some (Int 7))))).
Proof.
  intros F.
  assert (H1 : balanced "shop") by reflexivity.
  assert (H2 : Forall balanced F) by (repeat constructor).
  split; [exact H1|]. split; [exact H2|].
  exact (entry_braces_are_balanced "shop" F (Some (Int 7)) H1 H2).
Defined.

(** *** A property with the empty name *)

(** X12: a property whose name is the empty string keeps the quotes of
    its name, since the expression asks for at least one character between
    the quotes; the value, when well formed, is written as usual. *)
Theorem empty_property_name_keeps_quotes :
  forall (v : value) (text : string),
    well_formed v = true -> render v = Some text ->
    literal (VObj [("", v)]) = "{" ++ q ++ q ++ ":" ++ text ++ "}"
    /\ render (VObj [("", v)]) = Some ("{" ++ ":" ++ text ++ "}").
Proof.
  intros v text Hwf Hr.
  pose proof (stringify_agrees v Hwf) as Ha. unfold agrees in Ha.
  rewrite Hr in Ha.
  destruct (JSON_stringify v) as [s|] eqn:Hs; [|contradiction].
  destruct (Ha "}" eq_refl) as [Hrep Hcalm].
  apply calm_inv in Hcalm as [_ Hnext].
  split.
  - unfold literal.
    cbn [JSON_stringify flat_map snd fst app join optional_chain interpolate].
    rewrite Hs, app_nil_r. cbn [join].
    unfold QuoteJSONString, q. cbn [escape]. flatten.
    rewrite replace_keys_copy by now apply match_key_other.
    rewrite replace_keys_copy by reflexivity.
    rewrite replace_keys_copy
      by (apply match_key_closing; cbn [next_quote_colon]; exact Hnext).
    rewrite replace_keys_copy by now apply match_key_other.
    rewrite Hrep.
    rewrite replace_keys_copy by now apply match_key_other.
    now rewrite replace_keys_nil.
  - cbn [render flat_map snd fst]. rewrite Hr, app_nil_r.
    reflexivity.
Qed.

Lemma empty_property_name_keeps_quotes_witness :
  let v := VObj [("eq", VStr "shop")] in
  let text := "{eq:" ++ q ++ "shop" ++ q ++ "}" in
  well_formed v = true /\ render v = Some text
  /\ (literal (VObj [("", v)]) = "{" ++ q ++ q ++ ":" ++ text ++ "}"
      /\ render (VObj [("", v)]) = Some ("{" ++ ":" ++ text ++ "}")).
Proof.
  intros v text. split; [reflexivity|]. split; [reflexivity|].
  exact (empty_property_name_keeps_quotes v text eq_refl eq_refl).
Defined.

